(** * Auth Assurance guardrails: the pre-tool-use guard and the run executor

    A shallow embedding of [hooks/pre_tool_use_guard.py] and of the profile
    loop of [bin/auth_assurance.py], together with the pieces of the Python
    runtime the two files lean on ([int], [str.strip], [fnmatch.fnmatchcase],
    [PurePosixPath.match], [sorted], [hashlib.sha256]).

    Strings are [String.string]; every [ascii] stands for one code point in
    the range 0..255. *)

From Stdlib Require Import ZArith List String Ascii Bool Lia.
From Stdlib Require Import Permutation.
Import ListNotations.

Local Open Scope string_scope.
Local Open Scope Z_scope.
Local Open Scope list_scope.

(* ================================================================== *)
(** ** The Python runtime *)
(* ================================================================== *)

Module Py.

(** Exceptions that the modelled code can meet. *)
Inductive exn : Type :=
| ValueError
| TypeError
| OverflowError
| AttributeError
| IndexError
| KeyError
| CalledProcessError.

(** A computation either returns or raises. *)
Inductive result (A : Type) : Type :=
| Ok (a : A)
| Raise (e : exn).
Arguments Ok {A} a.
Arguments Raise {A} e.

Definition bind {A B : Type} (m : result A) (k : A -> result B) : result B :=
  match m with
  | Ok a => k a
  | Raise e => Raise e
  end.

Notation "x <- m ;; k" := (bind m (fun x => k))
  (at level 61, m at next level, right associativity).

(** [try: m  except Exception: h] *)
Definition try_except {A : Type} (m : result A) (h : result A) : result A :=
  match m with
  | Ok a => Ok a
  | Raise _ => h
  end.

(** [try: m  except (ValueError, TypeError): h] *)
Definition try_except_value_type {A : Type} (m : result A) (h : result A)
  : result A :=
  match m with
  | Ok a => Ok a
  | Raise ValueError => h
  | Raise TypeError => h
  | Raise e => Raise e
  end.

(** A binary float as [json.loads] can produce it: [NaN], [Infinity],
    [-Infinity] (also what [1e999] parses to) or the finite value
    [m * 2^e]. *)
Inductive pyfloat : Type :=
| FNan
| FInf (negative : bool)
| FFinite (m e : Z).

(** The values [json.loads] returns. A dict is kept as an association
    list; a key is looked up at its first occurrence. *)
#[warnings="-register-all"]
Inductive value : Type :=
| VNone
| VBool (b : bool)
| VInt (z : Z)
| VFloat (f : pyfloat)
| VStr (s : string)
| VList (l : list value)
| VDict (d : list (string * value)).

Definition dict : Type := list (string * value).

Fixpoint lookup (k : string) (d : dict) : option value :=
  match d with
  | [] => None
  | (k', v) :: d' => if String.eqb k k' then Some v else lookup k d'
  end.

(** [d.get(k, default)] *)
Definition get (d : dict) (k : string) (default : value) : value :=
  match lookup k d with
  | Some v => v
  | None => default
  end.

(** *** Characters and strings *)

Definition ord (c : ascii) : Z := Z.of_nat (nat_of_ascii c).

Definition chars (s : string) : list ascii := list_ascii_of_string s.
Definition str (l : list ascii) : string := string_of_list_ascii l.

(** [c.isspace()] on the code points below 256. *)
Definition isspace (c : ascii) : bool :=
  let n := ord c in
  ((9 <=? n) && (n <=? 13)) || ((28 <=? n) && (n <=? 32))
  || (n =? 133) || (n =? 160).

Definition isdigit (c : ascii) : bool :=
  let n := ord c in (48 <=? n) && (n <=? 57).

(** Drop the leading characters that satisfy [blank]. *)
Fixpoint lskip (blank : ascii -> bool) (l : list ascii) : list ascii :=
  match l with
  | c :: l' => if blank c then lskip blank l' else l
  | [] => []
  end.

(** Drop them at both ends. *)
Definition trim (blank : ascii -> bool) (l : list ascii) : list ascii :=
  rev (lskip blank (rev (lskip blank l))).

(** [s.strip()] *)
Definition strip (s : string) : string := str (trim isspace (chars s)).

(** [s.replace(a, b)] for single characters [a] and [b]. *)
Definition replace (a b : ascii) (s : string) : string :=
  str (map (fun c => if Ascii.eqb c a then b else c) (chars s)).

(** [s.split(sep)] for a single character [sep]. *)
Fixpoint split_on (sep : ascii) (cur : list ascii) (l : list ascii)
  : list string :=
  match l with
  | [] => [str (rev cur)]
  | c :: l' =>
      if Ascii.eqb c sep then str (rev cur) :: split_on sep [] l'
      else split_on sep (c :: cur) l'
  end.

Definition split (sep : ascii) (s : string) : list string :=
  split_on sep [] (chars s).

(** Line boundaries of [str.splitlines] below code point 256. *)
Definition islinebreak (c : ascii) : bool :=
  let n := ord c in
  ((10 <=? n) && (n <=? 13)) || ((28 <=? n) && (n <=? 30)) || (n =? 133).

Fixpoint splitlines_from (cur : list ascii) (l : list ascii) : list string :=
  match l with
  | [] => match cur with [] => [] | _ => [str (rev cur)] end
  | c :: l' =>
      if islinebreak c then
        str (rev cur) ::
          match l' with
          | c' :: l'' =>
              if (ord c =? 13) && (ord c' =? 10) then splitlines_from [] l''
              else splitlines_from [] l'
          | [] => []
          end
      else splitlines_from (c :: cur) l'
  end.

(** [s.splitlines()] *)
Definition splitlines (s : string) : list string :=
  splitlines_from [] (chars s).

(** *** [int(x)] *)

(** Digits of a decimal literal, with single underscores between digits;
    returns the value and the number of digits. *)
Fixpoint int_digits (acc : Z) (count : Z) (after_digit : bool)
  (l : list ascii) : option (Z * Z) :=
  match l with
  | [] => if after_digit then Some (acc, count) else None
  | c :: l' =>
      if isdigit c then int_digits (10 * acc + (ord c - 48)) (count + 1) true l'
      else if (ord c =? 95) && after_digit then int_digits acc count false l'
      else None
  end.

(** [sys.int_info.default_max_str_digits] *)
Definition max_str_digits : Z := 4300.

(** The blanks [int] skips around a literal: the C blanks, and the
    non-ASCII spaces (NEL, NBSP), which are first mapped to a blank. *)
Definition isspace_int (c : ascii) : bool :=
  let n := ord c in
  ((9 <=? n) && (n <=? 13)) || (n =? 32) || (n =? 133) || (n =? 160).

Definition int_of_str (s : string) : result Z :=
  let body := trim isspace_int (chars s) in
  let '(sign, ds) :=
    match body with
    | c :: r =>
        if ord c =? 45 then (-1, r)
        else if ord c =? 43 then (1, r)
        else (1, body)
    | [] => (1, body)
    end in
  match int_digits 0 0 false ds with
  | Some (n, count) =>
      if max_str_digits <? count then Raise ValueError else Ok (sign * n)
  | None => Raise ValueError
  end.

Definition int_of_float (f : pyfloat) : result Z :=
  match f with
  | FNan => Raise ValueError
  | FInf _ => Raise OverflowError
  | FFinite m e =>
      if 0 <=? e then Ok (m * 2 ^ e) else Ok (Z.quot m (2 ^ (- e)))
  end.

(** [int(x)] on a JSON value. *)
Definition int (x : value) : result Z :=
  match x with
  | VNone => Raise TypeError
  | VBool b => Ok (if b then 1 else 0)
  | VInt z => Ok z
  | VFloat f => int_of_float f
  | VStr s => int_of_str s
  | VList _ => Raise TypeError
  | VDict _ => Raise TypeError
  end.

(** *** [fnmatch.fnmatchcase]

    [fnmatch.translate] turns a shell pattern into a regular expression;
    the tokens below are the pieces of that expression. *)

Inductive token : Type :=
| TStar                                          (* [.*]   *)
| TAny                                           (* [.]    *)
| TLit (c : ascii)                               (* [re.escape(c)] *)
| TSet (negated : bool) (chunks : list (list ascii))  (* a bracket set *)
| TNever.                                        (* [(?!)] *)

Definition is_char (n : Z) (c : ascii) : bool := ord c =? n.

(** The scan for the closing bracket: an optional [!], an optional [\]]
    taken literally, then everything up to the next [\]]. Returns the
    text between the brackets and what follows the closing one. *)
Fixpoint until_close (l : list ascii) : option (list ascii * list ascii) :=
  match l with
  | [] => None
  | c :: l' =>
      if is_char 93 c then Some ([], l')
      else match until_close l' with
           | Some (mid, after) => Some (c :: mid, after)
           | None => None
           end
  end.

Definition find_close (l : list ascii) : option (list ascii * list ascii) :=
  let '(p1, l1) :=
    match l with
    | c :: t => if is_char 33 c then ([c], t) else ([], l)
    | [] => ([], l)
    end in
  let '(p2, l2) :=
    match l1 with
    | c :: t => if is_char 93 c then ([c], t) else ([], l1)
    | [] => ([], l1)
    end in
  match until_close l2 with
  | Some (mid, after) => Some (p1 ++ p2 ++ mid, after)
  | None => None
  end.

(** The text between the brackets is cut at the hyphens that stand for a
    range: the first [skip] characters cannot be such a hyphen, nor can
    the two characters after one; a range hyphen in last position stays
    in the chunk before it. *)
Fixpoint split_chunks (skip : nat) (cur : list ascii) (l : list ascii)
  : list (list ascii) :=
  match l with
  | [] => [rev cur]
  | c :: l' =>
      match skip with
      | O =>
          if is_char 45 c then
            match l' with
            | [] => [rev (c :: cur)]
            | _ => rev cur :: split_chunks 2 [] l'
            end
          else split_chunks 0 (c :: cur) l'
      | S k => split_chunks k (c :: cur) l'
      end
  end.

(** Empty ranges are removed, from the right: when the low end is above
    the high end both ends go and the two chunks are glued. *)
Definition drop_empty_ranges (chunks : list (list ascii)) : list (list ascii) :=
  fold_right
    (fun ch acc =>
       match acc with
       | [] => [ch]
       | d :: rest =>
           match last (map Some ch) None, d with
           | Some lo, hi :: d' =>
               if ord hi <? ord lo then (removelast ch ++ d') :: rest
               else ch :: acc
           | _, _ => ch :: acc
           end
       end)
    [] chunks.

Definition bracket_chunks (stuff : list ascii) : list (list ascii) :=
  if existsb (is_char 45) stuff then
    let skip :=
      match stuff with
      | c :: _ => if is_char 33 c then 2%nat else 1%nat
      | [] => 1%nat
      end in
    drop_empty_ranges (split_chunks skip [] stuff)
  else [stuff].

Definition bracket_token (stuff : list ascii) : token :=
  match bracket_chunks stuff with
  | [[]] => TNever
  | (c :: ch) :: rest =>
      if is_char 33 c then
        match ch, rest with
        | [], [] => TAny
        | _, _ => TSet true (ch :: rest)
        end
      else TSet false ((c :: ch) :: rest)
  | chunks => TSet false chunks
  end.

Fixpoint translate_from (fuel : nat) (pat : list ascii) (res : list token)
  : list token :=
  match fuel, pat with
  | S fuel', c :: rest =>
      if is_char 42 c then
        translate_from fuel' rest
          match res with TStar :: _ => res | _ => TStar :: res end
      else if is_char 63 c then translate_from fuel' rest (TAny :: res)
      else if is_char 91 c then
        match find_close rest with
        | None => translate_from fuel' rest (TLit c :: res)
        | Some (stuff, rest') =>
            translate_from fuel' rest' (bracket_token stuff :: res)
        end
      else translate_from fuel' rest (TLit c :: res)
  | _, _ => rev res
  end.

Definition translate (pat : string) : list token :=
  translate_from (String.length pat) (chars pat) [].

(** Membership in a bracket set: a character of a chunk, or a character
    in the range from the end of a chunk to the start of the next. *)
Fixpoint in_chunks (c : ascii) (chunks : list (list ascii)) : bool :=
  match chunks with
  | [] => false
  | ch :: rest =>
      existsb (Ascii.eqb c) ch
      || match last (map Some ch) None, rest with
         | Some lo, (hi :: _) :: _ => (ord lo <=? ord c) && (ord c <=? ord hi)
         | _, _ => false
         end
      || in_chunks c rest
  end.

Definition token_accepts (t : token) (c : ascii) : bool :=
  match t with
  | TStar => false
  | TAny => true
  | TLit c' => Ascii.eqb c c'
  | TSet negated chunks => xorb negated (in_chunks c chunks)
  | TNever => false
  end.

(** Whether the whole name is in the language of the expression. *)
Fixpoint tokens_match (ts : list token) : list ascii -> bool :=
  match ts with
  | [] => fun name => match name with [] => true | _ => false end
  | TStar :: ts' =>
      fix star (name : list ascii) : bool :=
        tokens_match ts' name
        || match name with
           | [] => false
           | _ :: name' => star name'
           end
  | t :: ts' =>
      fun name =>
        match name with
        | [] => false
        | c :: name' => token_accepts t c && tokens_match ts' name'
        end
  end.

Definition fnmatchcase (name pat : string) : bool :=
  tokens_match (translate pat) (chars name).

(** *** [pathlib.PurePosixPath] *)

Record PurePosixPath : Type := {
  root : string;
  parts : list string;
}.

Definition splitroot (part : string) : string * string :=
  match chars part with
  | c :: _ =>
      if is_char 47 c then
        let stripped := lskip (is_char 47) (chars part) in
        let n := (List.length (chars part) - List.length stripped)%nat in
        (if Nat.eqb n 2 then "//" else "/", str stripped)
      else ("", part)
  | [] => ("", part)
  end.

(** [PurePosixPath(s)]: the root, then the names between slashes, with
    empty names and [.] left out. *)
Definition parse_parts (part : string) : PurePosixPath :=
  let '(r, rel) := splitroot part in
  let names :=
    filter (fun x => negb (String.eqb x "") && negb (String.eqb x "."))
      (split "/"%char rel) in
  {| root := r; parts := if String.eqb r "" then names else r :: names |}.

Fixpoint zip_all (f : string -> string -> bool) (xs ys : list string) : bool :=
  match xs, ys with
  | x :: xs', y :: ys' => f x y && zip_all f xs' ys'
  | _, _ => true
  end.

(** [p.match(path_pattern)] *)
Definition path_match (p : PurePosixPath) (path_pattern : string)
  : result bool :=
  let pat := parse_parts path_pattern in
  match parts pat with
  | [] => Raise ValueError
  | _ :: pat_tail =>
      if negb (String.eqb (root pat) "")
         && negb (String.eqb (root pat) (root p))
      then Ok false
      else if negb (String.eqb (root pat) "") then
        if negb (Nat.eqb (List.length (parts pat)) (List.length (parts p)))
        then Ok false
        else Ok (zip_all fnmatchcase (rev (parts p)) (rev pat_tail))
      else if (List.length (parts p) <? List.length (parts pat))%nat then Ok false
      else Ok (zip_all fnmatchcase (rev (parts p)) (rev (parts pat)))
  end.

(** *** [sorted] on a list of strings *)

Fixpoint insert_sorted (x : string) (l : list string) : list string :=
  match l with
  | [] => [x]
  | y :: l' => if String.leb x y then x :: l else y :: insert_sorted x l'
  end.

Definition sorted (l : list string) : list string :=
  fold_right insert_sorted [] l.

(** *** [hashlib.sha256]

    Words are 32-bit integers kept in [Z]; every sum is cut back to 32
    bits. Bytes are integers in 0..255. *)

Definition mask32 : Z := 0xffffffff.

Definition add32 (x y : Z) : Z := Z.land (x + y) mask32.

Definition rotr (n x : Z) : Z :=
  Z.lor (Z.shiftr x n) (Z.land (Z.shiftl x (32 - n)) mask32).

Definition choose (x y z : Z) : Z :=
  Z.lxor (Z.land x y) (Z.land (Z.lxor x mask32) z).

Definition majority (x y z : Z) : Z :=
  Z.lxor (Z.lxor (Z.land x y) (Z.land x z)) (Z.land y z).

Definition big_sigma0 (x : Z) : Z :=
  Z.lxor (Z.lxor (rotr 2 x) (rotr 13 x)) (rotr 22 x).
Definition big_sigma1 (x : Z) : Z :=
  Z.lxor (Z.lxor (rotr 6 x) (rotr 11 x)) (rotr 25 x).
Definition small_sigma0 (x : Z) : Z :=
  Z.lxor (Z.lxor (rotr 7 x) (rotr 18 x)) (Z.shiftr x 3).
Definition small_sigma1 (x : Z) : Z :=
  Z.lxor (Z.lxor (rotr 17 x) (rotr 19 x)) (Z.shiftr x 10).

(** The constants are fractional parts of roots of the first primes:
    32 bits of the cube roots of the first 64 of them for the rounds, 32
    bits of the square roots of the first 8 for the initial hash. *)
Definition is_prime (n : Z) : bool :=
  (1 <? n)
  && forallb (fun d => negb (n mod Z.of_nat d =? 0))
       (seq 2 (Z.to_nat (Z.sqrt n) - 1)).

Definition first_primes (count : nat) : list Z :=
  firstn count (filter is_prime (map Z.of_nat (seq 2 310))).

(** The largest [r] below [2^36] with [r^3 <= n]. *)
Definition cube_root (n : Z) : Z :=
  fold_left
    (fun r i =>
       let r' := r + 2 ^ Z.of_nat i in
       if r' * r' * r' <=? n then r' else r)
    (rev (seq 0 36)) 0.

Definition round_constants : list Z :=
  Eval vm_compute in
    map (fun p => Z.land (cube_root (p * 2 ^ 96)) mask32) (first_primes 64).

Definition initial_hash : list Z :=
  Eval vm_compute in
    map (fun p => Z.land (Z.sqrt (p * 2 ^ 64)) mask32) (first_primes 8).

Fixpoint words_of_bytes (bs : list Z) : list Z :=
  match bs with
  | b0 :: b1 :: b2 :: b3 :: bs' =>
      Z.lor (Z.lor (Z.shiftl b0 24) (Z.shiftl b1 16)) (Z.lor (Z.shiftl b2 8) b3)
      :: words_of_bytes bs'
  | _ => []
  end.

(** The message schedule; [recent] holds the words so far, latest first. *)
Fixpoint schedule (n : nat) (recent : list Z) : list Z :=
  match n with
  | O => rev recent
  | S n' =>
      let w :=
        add32 (add32 (small_sigma1 (nth 1 recent 0)) (nth 6 recent 0))
              (add32 (small_sigma0 (nth 14 recent 0)) (nth 15 recent 0)) in
      schedule n' (w :: recent)
  end.

Definition round (st : list Z) (kw : Z * Z) : list Z :=
  match st with
  | [a; b; c; d; e; f; g; h] =>
      let t1 :=
        add32 (add32 (add32 h (big_sigma1 e)) (choose e f g))
              (add32 (fst kw) (snd kw)) in
      let t2 := add32 (big_sigma0 a) (majority a b c) in
      [add32 t1 t2; a; b; c; add32 d t1; e; f; g]
  | _ => st
  end.

Definition compress (h : list Z) (block : list Z) : list Z :=
  let w := schedule 48 (rev (words_of_bytes block)) in
  let st := fold_left round (combine round_constants w) h in
  map (fun p => add32 (fst p) (snd p)) (combine h st).

Definition be_bytes (n : nat) (x : Z) : list Z :=
  map (fun i => Z.land (Z.shiftr x (8 * Z.of_nat i)) 255) (rev (seq 0 n)).

Definition pad (msg : list Z) : list Z :=
  let len := Z.of_nat (List.length msg) in
  msg ++ [128] ++ repeat 0 (Z.to_nat ((55 - len) mod 64))
      ++ be_bytes 8 (8 * len).

Fixpoint blocks (fuel : nat) (bs : list Z) : list (list Z) :=
  match fuel, bs with
  | S fuel', _ :: _ => firstn 64 bs :: blocks fuel' (skipn 64 bs)
  | _, _ => []
  end.

Definition sha256_words (msg : list Z) : list Z :=
  let padded := pad msg in
  fold_left compress (blocks (List.length padded) padded) initial_hash.

Definition hex_digit (n : Z) : ascii :=
  ascii_of_nat (Z.to_nat (if n <? 10 then 48 + n else 87 + n)).

Definition hex_of_word (w : Z) : list ascii :=
  map (fun i => hex_digit (Z.land (Z.shiftr w (4 * Z.of_nat i)) 15))
      (rev (seq 0 8)).

(** A hash object: the bytes fed so far. *)
Definition sha256 : Type := list Z.
Definition sha256_new : sha256 := [].
Definition update (h : sha256) (data : list Z) : sha256 := h ++ data.
Definition hexdigest (h : sha256) : string :=
  str (flat_map hex_of_word (sha256_words h)).

(** [s.encode("utf-8")] for code points below 256. *)
Definition encode_utf8 (s : string) : list Z :=
  flat_map
    (fun c =>
       let n := ord c in
       if n <? 128 then [n] else [192 + Z.shiftr n 6; 128 + Z.land n 63])
    (chars s).

End Py.

(* ================================================================== *)
(** ** hooks/pre_tool_use_guard.py *)
(* ================================================================== *)

Module Guard.
Import Py.

(** *** What the hook is given and what it gives back *)

Inductive Decision : Type := Allow | Ask | Deny.

(** The JSON the hook prints: [permissionDecision] and, for ask and deny,
    [permissionDecisionReason]. *)
Record Output : Type := {
  permissionDecision : Decision;
  permissionDecisionReason : option string;
}.

(** How a run of the hook ends: [allow], [ask] and [deny] print and raise
    [SystemExit(0)]; any other exception is not caught. *)
Inductive Halt : Type :=
| SystemExit (out : Output)
| Uncaught (e : exn).

(** The dict handed to [_log_security_event]. [ev_ts] is the reading of
    the clock that [_iso()] writes out as text. *)
Record Event : Type := {
  ev_ts : Z;
  ev_session_id : value;
  ev_tool : string;
  ev_decision : string;
  ev_reason : option string;
  ev_command : option string;
  ev_path : option string;
  ev_base_branch : option string;
  ev_fingerprint : option string;
  ev_profile_exit_codes : option value;
}.

(** The hook threads the audit trail and stops at the first exit. *)
Definition hook (A : Type) : Type := list Event -> list Event * (A + Halt).

Definition ret {A : Type} (a : A) : hook A := fun log => (log, inl a).

Definition seq {A B : Type} (m : hook A) (k : A -> hook B) : hook B :=
  fun log =>
    match m log with
    | (log', inl a) => k a log'
    | (log', inr h) => (log', inr h)
    end.

Notation "x <~ m ;; k" := (seq m (fun x => k))
  (at level 61, m at next level, right associativity).
Notation "m ;;; k" := (seq m (fun _ => k))
  (at level 61, right associativity).

Definition halt {A : Type} (h : Halt) : hook A := fun log => (log, inr h).

Definition lift {A : Type} (r : result A) : hook A :=
  match r with
  | Ok a => ret a
  | Raise e => halt (Uncaught e)
  end.

Definition when (b : bool) (m : hook unit) : hook unit :=
  if b then m else ret tt.

Definition allow {A : Type} : hook A :=
  halt (SystemExit {| permissionDecision := Allow;
                      permissionDecisionReason := None |}).

Definition ask {A : Type} (reason : string) : hook A :=
  halt (SystemExit {| permissionDecision := Ask;
                      permissionDecisionReason := Some reason |}).

Definition deny {A : Type} (reason : string) : hook A :=
  halt (SystemExit {| permissionDecision := Deny;
                      permissionDecisionReason := Some reason |}).

(** The trail is the sequence of the events handed to
    [_log_security_event], in the order of the calls. It is not the
    content of the audit directory: the source writes each event to the
    file [<second>_<pid>.json] of the day's directory and swallows every
    failure of the write, so that a call may leave no file, or replace the
    file of an earlier call of the same second and process. *)
Definition _log_security_event (event : Event) : hook unit :=
  fun log => (log ++ [event], inl tt).

(** One [{"pattern": ..., "reason": ...}] entry; either key may be absent. *)
Record Rule : Type := {
  pattern : option string;
  reason : option string;
}.

(** [security_policy.json] after the local overrides are merged in. A
    bucket that is absent or not a list reads as the empty list. *)
Record Policy : Type := {
  bash_blocked : list Rule;
  bash_confirm : list Rule;
  paths_zeroAccess : list string;
  paths_confirmWrite : list string;
  evidence_require_success_for_paths : list string;
  evidence_require_confirm_without_evidence_for_paths : list string;
  evidence_max_age_seconds : Z;
}.

(** [profiles.json] and the policy; [_load_config] gives two empty dicts
    when either file is missing, which is [None] here. *)
Record Config : Type := {
  base_branch : string;
  policy : Policy;
}.

(** [tool_input]: a bare string, or a dict whose fields are strings as the
    hook protocol sends them, or some other JSON value. *)
Inductive ToolInput : Type :=
| InputStr (s : string)
| InputDict (d : list (string * string))
| InputOther.

Record Payload : Type := {
  session_id : value;
  tool_name : string;
  tool_input : ToolInput;
}.

Fixpoint field (k : string) (d : list (string * string)) : option string :=
  match d with
  | [] => None
  | (k', v) :: d' => if String.eqb k k' then Some v else field k d'
  end.

Definition field_or (d : list (string * string)) (k default : string) : string :=
  match field k d with
  | Some v => v
  | None => default
  end.

(** *** The helpers *)

Definition _posix (path : string) : string := replace "\"%char "/"%char path.

Fixpoint _match_any_in (p : PurePosixPath) (path : string)
  (patterns : list string) : result bool :=
  match patterns with
  | [] => Ok false
  | pat :: rest =>
      hit <- try_except (path_match p pat)
               (* Fallback to fnmatch *)
               (Ok (fnmatchcase (_posix path) pat)) ;;
      if (hit : bool) then Ok true else _match_any_in p path rest
  end.

Definition _match_any (path : string) (patterns : list string) : result bool :=
  _match_any_in (parse_parts (_posix path)) path patterns.

(** [git_output] is what [git diff --name-only base...HEAD] printed, or
    [None] when the call failed. *)
Definition _git_diff_files (git_output : option string) : list string :=
  match git_output with
  | Some out =>
      sorted
        (map strip
           (filter (fun l => negb (String.eqb (strip l) "")) (splitlines out)))
  | None => []
  end.

Definition _fingerprint (files : list string) : string :=
  hexdigest
    (fold_left (fun h f => update (update h (encode_utf8 f)) [10])
       files sha256_new).

Definition _policy_lists (policy : Policy) (k1 k2 : string) : list string :=
  if String.eqb k1 "paths" && String.eqb k2 "zeroAccess"
  then paths_zeroAccess policy
  else if String.eqb k1 "paths" && String.eqb k2 "confirmWrite"
  then paths_confirmWrite policy
  else if String.eqb k1 "evidence" && String.eqb k2 "require_success_for_paths"
  then evidence_require_success_for_paths policy
  else if String.eqb k1 "evidence"
          && String.eqb k2 "require_confirm_without_evidence_for_paths"
  then evidence_require_confirm_without_evidence_for_paths policy
  else [].

Definition _bash_patterns (policy : Policy) (bucket : string) : list Rule :=
  if String.eqb bucket "blocked" then bash_blocked policy
  else if String.eqb bucket "confirm" then bash_confirm policy
  else [].

Definition or_default (o : option string) (default : string) : string :=
  match o with
  | Some s => s
  | None => default
  end.

Fixpoint _match_bash (cmd : string) (patterns : list Rule) : option string :=
  match patterns with
  | [] => None
  | p :: rest =>
      let pat := or_default (pattern p) "" in
      if negb (String.eqb pat "") && fnmatchcase cmd pat
      then Some (or_default (reason p) "matched security policy")
      else _match_bash cmd rest
  end.

(** Truth value of an [Optional[str]]: [None] and the empty string are
    false. *)
Definition truthy (o : option string) : bool :=
  match o with
  | Some s => negb (String.eqb s "")
  | None => false
  end.

(** *** The evidence state (the block of [main] that reads [state]) *)

Record Evidence : Type := {
  evidence_pass : bool;
  ran_fresh_for_diff : bool;
  authn_gateway_pass : bool;
  profile_exit_codes : value;
}.

(** [state.get("diff_fingerprint") == fp] *)
Definition equals_str (v : option value) (s : string) : bool :=
  match v with
  | Some (VStr s') => String.eqb s' s
  | _ => false
  end.

Definition evidence_state (state : option dict) (fp : string)
  (now max_age : Z) : result Evidence :=
  match state with
  | None | Some [] =>
      Ok {| evidence_pass := false; ran_fresh_for_diff := false;
            authn_gateway_pass := false; profile_exit_codes := VDict [] |}
  | Some state =>
      ts <- int (get state "timestamp" (VInt 0)) ;;
      exit_code <- try_except (int (get state "exit_code" (VInt 999)))
                     (Ok 999) ;;
      let ok_fp := equals_str (lookup "diff_fingerprint" state) fp in
      let fresh := now - ts <=? max_age in
      let codes := get state "profile_exit_codes" (VDict []) in
      gateway <-
        match codes with
        | VDict codes =>
            authn_gateway_rc <-
              try_except_value_type
                (int (get codes "authn-gateway" (VInt 999))) (Ok 999) ;;
            Ok (ok_fp && fresh && (authn_gateway_rc =? 0))
        | _ => Ok false
        end ;;
      Ok {| evidence_pass := ok_fp && fresh && (exit_code =? 0);
            ran_fresh_for_diff :=
              ok_fp && fresh && ((exit_code =? 0) || (exit_code =? 1));
            authn_gateway_pass := gateway;
            profile_exit_codes := codes |}
  end.

(** *** [main] *)

Definition event (now : Z) (payload : Payload) (tool decision : string)
  : Event :=
  {| ev_ts := now; ev_session_id := session_id payload; ev_tool := tool;
     ev_decision := decision; ev_reason := None; ev_command := None;
     ev_path := None; ev_base_branch := None; ev_fingerprint := None;
     ev_profile_exit_codes := None |}.

Definition with_reason (r : string) (e : Event) : Event :=
  {| ev_ts := ev_ts e;
     ev_session_id := ev_session_id e; ev_tool := ev_tool e;
     ev_decision := ev_decision e; ev_reason := Some r;
     ev_command := ev_command e; ev_path := ev_path e;
     ev_base_branch := ev_base_branch e; ev_fingerprint := ev_fingerprint e;
     ev_profile_exit_codes := ev_profile_exit_codes e |}.

Definition with_command (c : string) (e : Event) : Event :=
  {| ev_ts := ev_ts e;
     ev_session_id := ev_session_id e; ev_tool := ev_tool e;
     ev_decision := ev_decision e; ev_reason := ev_reason e;
     ev_command := Some c; ev_path := ev_path e;
     ev_base_branch := ev_base_branch e; ev_fingerprint := ev_fingerprint e;
     ev_profile_exit_codes := ev_profile_exit_codes e |}.

Definition with_path (p : string) (e : Event) : Event :=
  {| ev_ts := ev_ts e;
     ev_session_id := ev_session_id e; ev_tool := ev_tool e;
     ev_decision := ev_decision e; ev_reason := ev_reason e;
     ev_command := ev_command e; ev_path := Some p;
     ev_base_branch := ev_base_branch e; ev_fingerprint := ev_fingerprint e;
     ev_profile_exit_codes := ev_profile_exit_codes e |}.

Definition with_diff (branch fp : string) (e : Event) : Event :=
  {| ev_ts := ev_ts e;
     ev_session_id := ev_session_id e; ev_tool := ev_tool e;
     ev_decision := ev_decision e; ev_reason := ev_reason e;
     ev_command := ev_command e; ev_path := ev_path e;
     ev_base_branch := Some branch; ev_fingerprint := Some fp;
     ev_profile_exit_codes := ev_profile_exit_codes e |}.

Definition with_codes (codes : value) (e : Event) : Event :=
  {| ev_ts := ev_ts e;
     ev_session_id := ev_session_id e; ev_tool := ev_tool e;
     ev_decision := ev_decision e; ev_reason := ev_reason e;
     ev_command := ev_command e; ev_path := ev_path e;
     ev_base_branch := ev_base_branch e; ev_fingerprint := ev_fingerprint e;
     ev_profile_exit_codes := Some codes |}.

Definition is_file_tool (name : string) : bool :=
  String.eqb name "Edit" || String.eqb name "Write" || String.eqb name "Read".

Definition is_write_tool (name : string) : bool :=
  String.eqb name "Edit" || String.eqb name "Write".

(** The command of a Bash call, as [main] takes it from [tool_input]. *)
Definition command_of (input : ToolInput) : string :=
  strip
    match input with
    | InputStr s => s
    | InputDict d => field_or d "command" ""
    | InputOther => ""
    end.

(** The path of a file call, as [main] takes it from [tool_input]. *)
Definition file_path_of (input : ToolInput) : string :=
  _posix
    match input with
    | InputDict d => field_or d "file_path" (field_or d "path" "")
    | _ => ""
    end.

(** The [tool_name == "Bash"] branch. *)
Definition handle_bash (policy : Policy) (payload : Payload) (now : Z)
  : hook unit :=
  let cmd := command_of (tool_input payload) in
  (* Blocked *)
  let reason := _match_bash cmd (_bash_patterns policy "blocked") in
  when (truthy reason)
    (_log_security_event
       (with_command cmd
          (with_reason (or_default reason "") (event now payload "Bash" "block"))) ;;;
     deny (String.concat ""
             ["Blocked command ("; or_default reason ""; "): "; cmd])) ;;;
  (* Confirm *)
  let reason := _match_bash cmd (_bash_patterns policy "confirm") in
  when (truthy reason)
    (_log_security_event
       (with_command cmd
          (with_reason (or_default reason "") (event now payload "Bash" "ask"))) ;;;
     ask (String.concat ""
            ["High-risk command ("; or_default reason ""; "). Confirm?"])) ;;;
  (* Allow *)
  _log_security_event (with_command cmd (event now payload "Bash" "allow")) ;;;
  allow.

(** The [tool_name in ("Edit", "Write", "Read")] branch. *)
Definition handle_file (config : Config) (payload : Payload) (now : Z)
  (fp : string) (ev : Evidence) : hook unit :=
  let policy := policy config in
  let tool := tool_name payload in
  let file_path := file_path_of (tool_input payload) in
  (* Absolute deny for secrets *)
  zero <~ lift (_match_any file_path (_policy_lists policy "paths" "zeroAccess")) ;;
  when zero
    (_log_security_event
       (with_path file_path
          (with_reason "zeroAccess" (event now payload tool "block"))) ;;;
     deny (String.concat ""
             ["Blocked access to sensitive path: "; file_path])) ;;;
  (* Require evidence (strict) for policy files - use per-profile gating *)
  strict <~ lift (_match_any file_path
                    (_policy_lists policy "evidence" "require_success_for_paths")) ;;
  when (strict && negb (authn_gateway_pass ev))
    (_log_security_event
       (with_codes (profile_exit_codes ev)
          (with_diff (base_branch config) fp
             (with_path file_path
                (with_reason "authn_gateway_not_pass"
                   (event now payload tool "block"))))) ;;;
     deny (String.concat ""
             ["Auth policy edit requires authn-gateway profile to PASS ";
              "for current diff vs "; base_branch config;
              ". Run auth_assurance."])) ;;;
  (* Confirm for auth surfaces without evidence *)
  surface <~ lift (_match_any file_path
                     (_policy_lists policy "evidence"
                        "require_confirm_without_evidence_for_paths")) ;;
  when (surface && negb (ran_fresh_for_diff ev))
    (_log_security_event
       (with_diff (base_branch config) fp
          (with_path file_path
             (with_reason "no_fresh_evidence" (event now payload tool "ask")))) ;;;
     ask (String.concat ""
            ["Auth surface change detected. No fresh Auth Assurance evidence ";
             "for current diff vs "; base_branch config;
             ". Run auth_assurance (recommended) and confirm."])) ;;;
  (* Confirm writes for broad auth surfaces *)
  broad <~ (if is_write_tool tool
            then lift (_match_any file_path
                         (_policy_lists policy "paths" "confirmWrite"))
            else ret false) ;;
  when (broad && negb (ran_fresh_for_diff ev))
    (_log_security_event
       (with_path file_path
          (with_reason "confirmWrite" (event now payload tool "ask"))) ;;;
     ask (String.concat ""
            ["Editing sensitive path: "; file_path; ". Confirm?"])) ;;;
  _log_security_event (with_path file_path (event now payload tool "allow")) ;;;
  allow.

(** [enabled] is the value of [AUTH_ASSURANCE_ENABLED] ([None] when unset),
    [config] what [_load_config] found, [git_output] the output of the git
    query, [state] what [_read_state] returned and [now] the clock. The
    source reads the clock for the freshness test and again when it stamps
    an event; a run is taken to happen within one second, so that the
    readings are the same. *)
Definition main (enabled : option string) (config : option Config)
  (payload : Payload) (git_output : option string) (state : option dict)
  (now : Z) : hook unit :=
  (* Global kill-switch *)
  when (negb (String.eqb (or_default enabled "0") "1")) allow ;;;
  match config with
  | None =>
      (* If pack isn't installed, allow everything (don't brick dev) *)
      allow
  | Some config =>
      let max_age := evidence_max_age_seconds (policy config) in
      (* Gather evidence freshness *)
      let diff_files := _git_diff_files git_output in
      let fp := _fingerprint diff_files in
      ev <~ lift (evidence_state state fp now max_age) ;;
      (* ---- Handle tool types ---- *)
      when (String.eqb (tool_name payload) "Bash")
        (handle_bash (policy config) payload now) ;;;
      when (is_file_tool (tool_name payload))
        (handle_file config payload now fp ev) ;;;
      (* Default allow *)
      allow
  end.

End Guard.

(* ================================================================== *)
(** ** bin/auth_assurance.py *)
(* ================================================================== *)

Module Assurance.
Import Py.

Definition _posix (path : string) : string := replace "\"%char "/"%char path.

Definition _fingerprint (files : list string) : string :=
  hexdigest
    (fold_left (fun h f => update (update h (encode_utf8 f)) [10])
       files sha256_new).

Fixpoint _match_any_in (p : PurePosixPath) (file_path : string)
  (patterns : list string) : result bool :=
  match patterns with
  | [] => Ok false
  | pat :: rest =>
      hit <- try_except (path_match p pat) (Ok (String.eqb file_path pat)) ;;
      if (hit : bool) then Ok true else _match_any_in p file_path rest
  end.

Definition _match_any (file_path : string) (patterns : list string)
  : result bool :=
  _match_any_in (parse_parts (_posix file_path)) file_path patterns.

(** *** The profile loop of [cmd_run] *)

Section Run.

(** Whatever the runner can read and change. *)
Variable World : Type.

(** [format tpl profile] is
    [tpl.format(profile=profile, base_branch=base, repo_root=str(repo))]:
    the command, or the exception of a template that names another
    field or is malformed ([KeyError], [IndexError], [ValueError],
    [AttributeError]). *)
Variable format : string -> string -> result string.

(** [_run_cmd_capture] on a command: the exit status of the runner, and
    the world it leaves. *)
Variable _run_cmd_capture : World -> string -> Z * World.

Record RunState : Type := {
  overall_rc : Z;
  (** the profiles run so far with their exit status, in order *)
  executed : list (string * Z);
  world : World;
}.

(** How a piece of [cmd_run] ends: it comes to its end, or an exception
    leaves it, with the world as it is then. *)
Inductive Ended (A : Type) : Type :=
| Returns (a : A)
| Raises (e : exn) (w : World).
Arguments Returns {A} a.
Arguments Raises {A} e w.

Fixpoint run_profiles (runner_tpl : string) (profiles : list string)
  (st : RunState) : Ended RunState :=
  match profiles with
  | [] => Returns st
  | profile :: rest =>
      match format runner_tpl profile with
      | Raise e => Raises e (world st)
      | Ok cmd =>
          let '(rc, w) := _run_cmd_capture (world st) cmd in
          let ran := executed st ++ [(profile, rc)] in
          if rc =? 2 then
            (* break *)
            Returns {| overall_rc := 2; executed := ran; world := w |}
          else
            run_profiles runner_tpl rest
              {| overall_rc := if negb (rc =? 0) then 1 else overall_rc st;
                 executed := ran; world := w |}
      end
  end.

Definition status_of (rc : Z) : string :=
  if rc =? 0 then "PASS"
  else if rc =? 2 then "TOOLING_ERROR" else "FAIL".

Record RunReport : Type := {
  exit_code : Z;
  status : option string;
  ran : list (string * Z);
  after : World;
}.

(** [cmd_run] once the profile list is known: [runner_tpl] is
    [runner.command_template], [runner_exists] tells whether its first
    word names an existing file, and [git_output] is what
    [git diff --name-only] prints, [None] when the call fails. The
    function returns its exit code, or an exception leaves it: that of
    [runner_tpl.split()[0]] on a template of blanks, that of
    [_git_diff_files] when git fails, that of [runner_tpl.format]. The
    file system is taken to work: the run directory can be made, the
    logs read and [run.json] written. *)
Definition cmd_run (profiles : list string) (runner_tpl : string)
  (runner_exists : bool) (git_output : option string) (w : World)
  : Ended RunReport :=
  match profiles with
  | [] => Returns {| exit_code := 0; status := None; ran := []; after := w |}
  | _ =>
      if String.eqb runner_tpl "" then
        Returns {| exit_code := 2; status := None; ran := []; after := w |}
      else if forallb isspace (chars runner_tpl) then
        Raises IndexError w
      else if negb runner_exists then
        Returns {| exit_code := 2; status := None; ran := []; after := w |}
      else
        match git_output with
        | None => Raises CalledProcessError w
        | Some _ =>
            match run_profiles runner_tpl profiles
                    {| overall_rc := 0; executed := []; world := w |} with
            | Raises e w' => Raises e w'
            | Returns st =>
                Returns {| exit_code := overall_rc st;
                           status := Some (status_of (overall_rc st));
                           ran := executed st; after := world st |}
            end
        end
  end.

End Run.

Arguments overall_rc {World} _.
Arguments executed {World} _.
Arguments world {World} _.
Arguments exit_code {World} _.
Arguments status {World} _.
Arguments ran {World} _.
Arguments after {World} _.
Arguments Returns {World A} a.
Arguments Raises {World A} e w.

End Assurance.

(* ================================================================== *)
(** ** Python dicts, as the configuration code uses them *)
(* ================================================================== *)

Module PyDict.
Import Py.

(** The entries of a dict: of the pairs of the association list, those
    whose key has not come before. *)
Fixpoint items_from (seen : list string) (d : dict) : dict :=
  match d with
  | [] => []
  | (k, v) :: d' =>
      if existsb (String.eqb k) seen then items_from seen d'
      else (k, v) :: items_from (k :: seen) d'
  end.

(** [d.items()] *)
Definition items (d : dict) : dict := items_from [] d.

(** [d[k] = v]: the value is replaced where the key is, a new key goes
    to the end. *)
Fixpoint set_item (d : dict) (k : string) (v : value) : dict :=
  match d with
  | [] => [(k, v)]
  | (k', v') :: d' =>
      if String.eqb k k' then (k, v) :: d' else (k', v') :: set_item d' k v
  end.

(** [d.update(other)] *)
Definition update (d other : dict) : dict :=
  fold_left (fun d e => set_item d (fst e) (snd e)) (items other) d.

(** Truth value of a JSON value: [None], [False], zero, and the empty
    string, list and dict are false. *)
Definition truth (v : value) : bool :=
  match v with
  | VNone => false
  | VBool b => b
  | VInt z => negb (z =? 0)
  | VFloat (FFinite m _) => negb (m =? 0)
  | VFloat _ => true
  | VStr s => negb (String.eqb s "")
  | VList l => match l with [] => false | _ => true end
  | VDict d => match d with [] => false | _ => true end
  end.

End PyDict.

(* ================================================================== *)
(** ** hooks/pre_tool_use_guard.py: loading the configuration *)
(* ================================================================== *)

Module GuardConfig.
Import Py.
Import PyDict.

(** The value a key gets in the merge: a dict over a dict is the old
    dict updated, anything else is the new value. *)
Definition merged (v : value) (old : option value) : value :=
  match v, old with
  | VDict v', Some (VDict b) => VDict (update b v')
  | _, _ => v
  end.

Definition _merge_dict (base override : dict) : dict :=
  fold_left
    (fun out e => set_item out (fst e) (merged (snd e) (lookup (fst e) out)))
    (items override) base.

(** A JSON file as the loader meets it: [None] when it does not exist,
    otherwise what [_load_json] returns or raises. *)
Definition File : Type := option (result dict).

(** [override_candidates] are the two local override files, in order. *)
Definition _load_config (profiles_file policy_file : File)
  (override_candidates : list File) : result (dict * dict) :=
  match profiles_file, policy_file with
  | Some profiles_json, Some policy_json =>
      profiles <- profiles_json ;;
      policy <- policy_json ;;
      Ok (profiles,
          fold_left
            (fun policy p =>
               match p with
               | Some (Ok override) => _merge_dict policy override
               | Some (Raise _) => policy        (* except Exception: pass *)
               | None => policy
               end)
            override_candidates policy)
  | _, _ => Ok ([], [])
  end.

(** [_policy_lists(policy, *keys)], on the JSON as loaded. *)
Fixpoint _policy_lists (cur : value) (keys : list string) : list value :=
  match keys with
  | [] => match cur with VList l => l | _ => [] end
  | k :: keys' =>
      match cur with
      | VDict d => _policy_lists (get d k (VDict [])) keys'
      | _ => []
      end
  end.

(** [_bash_patterns(policy, bucket)], on the JSON as loaded. *)
Definition _bash_patterns (policy : dict) (bucket : string) : list value :=
  let b :=
    match lookup "bash" policy with
    | Some (VDict b) => b
    | _ => []
    end in
  match get b bucket (VList []) with
  | VList pats => pats
  | _ => []
  end.

End GuardConfig.

(* ================================================================== *)
(** ** bin/auth_assurance.py: selecting the profiles, recording the run *)
(* ================================================================== *)

Module Executor.
Import Py.
Import PyDict.

(** profiles.json, as far as the code reads it: the base branch, and
    the JSON value under the key [profiles], if there is one. *)
Record Cfg : Type := {
  base_branch : option string;
  profiles : option value;
}.

(** [sep.join(l)] *)
Fixpoint join (sep : string) (l : list string) : string :=
  match l with
  | [] => ""
  | [x] => x
  | x :: rest => x ++ sep ++ join sep rest
  end.

(** [for pat in patterns]: what a JSON value yields when it is iterated.
    A list yields its items, a string its characters, an object its
    keys; a number, a boolean and [None] cannot be iterated. *)
Definition iterate (patterns : value) : result (list value) :=
  match patterns with
  | VList l => Ok l
  | VStr s => Ok (map (fun c => VStr (String c "")) (chars s))
  | VDict d => Ok (map (fun e => VStr (fst e)) (items d))
  | _ => Raise TypeError
  end.

(** [p.match(pat)]: on a value that is not a string the library raises
    ([TypeError], [ValueError], [AttributeError] or [KeyError], according
    to the value; the handler of [_match_any] catches them all). *)
Definition match_value (p : PurePosixPath) (pat : value) : result bool :=
  match pat with
  | VStr s => path_match p s
  | _ => Raise TypeError
  end.

(** [file_path == pat] *)
Definition equals (file_path : string) (pat : value) : bool :=
  match pat with
  | VStr s => String.eqb file_path s
  | _ => false
  end.

Fixpoint _match_any_in (p : PurePosixPath) (file_path : string)
  (patterns : list value) : result bool :=
  match patterns with
  | [] => Ok false
  | pat :: rest =>
      hit <- try_except (match_value p pat) (Ok (equals file_path pat)) ;;
      if (hit : bool) then Ok true else _match_any_in p file_path rest
  end.

(** [_match_any(file_path, patterns)] on the JSON value that stands
    where the list of patterns is expected. *)
Definition _match_any (file_path : string) (patterns : value) : result bool :=
  let p := parse_parts (Assurance._posix file_path) in
  pats <- iterate patterns ;;
  _match_any_in p file_path pats.

(** [any(_match_any(f, triggers) for f in files)] *)
Fixpoint any_match (files : list string) (triggers : value) : result bool :=
  match files with
  | [] => Ok false
  | f :: rest =>
      hit <- _match_any f triggers ;;
      if (hit : bool) then Ok true else any_match rest triggers
  end.

(** [p.get("auto_select") is False] *)
Definition is_False (v : option value) : bool :=
  match v with
  | Some (VBool false) => true
  | _ => false
  end.

(** The loop of [_select_profiles] over [profs.items()]: the names
    appended to [selected]. *)
Fixpoint selected (profs : dict) (files : list string)
  : result (list string) :=
  match profs with
  | [] => Ok []
  | (name, p) :: rest =>
      if String.eqb name "all" then selected rest files
      else if match p with
              | VDict d => is_False (lookup "auto_select" d)
              | _ => false
              end
      then selected rest files
      else
        let triggers :=
          match p with
          | VDict d => get d "triggers" (VList [])
          | _ => VList []
          end in
        hit <- (if truth triggers then any_match files triggers
                else Ok false) ;;
        later <- selected rest files ;;
        Ok (if (hit : bool) then name :: later else later)
  end.

Definition _select_profiles (cfg : Cfg) (files : list string)
  : result (list string) :=
  (* profs = cfg.get("profiles", {}) *)
  let profs :=
    match profiles cfg with
    | Some v => v
    | None => VDict []
    end in
  match profs with
  | VDict profs =>
      names <- selected (items profs) files ;;
      Ok (sorted (nodup string_dec names))
  | _ =>
      (* profs.items() *)
      Raise AttributeError
  end.

(** [_git_diff_files] of the executor, which lets the failure of git
    through. *)
Definition _git_diff_files (git_output : option string)
  : result (list string) :=
  match git_output with
  | Some out =>
      Ok (sorted
            (map strip
               (filter (fun l => negb (String.eqb (strip l) ""))
                  (splitlines out))))
  | None => Raise CalledProcessError
  end.

(** The list of profiles [cmd_run] makes of a [--profiles] argument
    other than [auto]. *)
Definition profiles_of_arg (profiles_arg : string) : list string :=
  map strip
    (filter (fun p => negb (String.eqb (strip p) ""))
       (split ","%char profiles_arg)).

(** The profiles [cmd_run] sets out to run: selected from the diff when
    the argument is the word [auto], read from the argument otherwise. *)
Definition requested_profiles (cfg : Cfg) (profiles_arg : string)
  (git_output : option string) : result (list string) :=
  if String.eqb profiles_arg "auto" then
    files <- _git_diff_files git_output ;;
    _select_profiles cfg files
  else Ok (profiles_of_arg profiles_arg).

(** The table of exit codes [cmd_run] derives from the results of the
    profiles it ran. *)
Definition profile_exit_codes (ran : list (string * Z)) : dict :=
  fold_left (fun d r => set_item d (fst r) (VInt (snd r))) ran [].

(** The record [cmd_run] leaves in [.state/last_run.json] after the
    loop; the early returns leave none. *)
Definition last_run_state {World : Type} (now : Z) (base fp : string)
  (profiles : list string) (run_id run_json : string)
  (report : Assurance.RunReport World) : option dict :=
  match Assurance.status report with
  | None => None
  | Some status =>
      Some [ ("timestamp", VInt now);
             ("base_branch", VStr base);
             ("diff_fingerprint", VStr fp);
             ("profiles", VList (map VStr profiles));
             ("exit_code", VInt (Assurance.exit_code report));
             ("profile_exit_codes",
               VDict (profile_exit_codes (Assurance.ran report)));
             ("status", VStr status);
             ("run_id", VStr run_id);
             ("run_json", VStr run_json) ]
  end.

End Executor.

(* ================================================================== *)
(** ** hooks/stop_orchestrator.py *)
(* ================================================================== *)

Module Orchestrator.
Import Py.
Import PyDict.

(** What a run of the hook does: nothing, or a call of the executor
    with a [--profiles] and a [--base] argument. *)
Inductive Outcome : Type :=
  | Nothing
  | RunExecutor (profiles_arg base : string).

Definition or_default (o : option string) (default : string) : string :=
  match o with
  | Some s => s
  | None => default
  end.

(** The helpers have the text of those of the guard and the executor. *)
Definition _git_diff_files (git_output : option string) : list string :=
  match git_output with
  | Some out =>
      sorted
        (map strip
           (filter (fun l => negb (String.eqb (strip l) "")) (splitlines out)))
  | None => []
  end.

Definition _fingerprint : list string -> string := Assurance._fingerprint.

Definition _select_profiles := Executor._select_profiles.

(** [os.environ.get("AUTH_ASSURANCE_BASE_BRANCH") or
    cfg.get("base_branch", "origin/develop")] *)
Definition base_of (base_env : option string) (cfg : Executor.Cfg) : string :=
  match base_env with
  | Some (String c s) => String c s
  | _ => or_default (Executor.base_branch cfg) "origin/develop"
  end.

(** [cfg] is [None] when profiles.json is missing or holds the empty
    object ([if not cfg]); [git base] is what [git diff --name-only]
    prints against [base], or [None] when it fails; [prev] is what
    [_read_state] returns. *)
Definition main (payload : dict)
  (enabled base_env debounce_env autorun_env : option string)
  (cfg : option Executor.Cfg) (git : string -> option string)
  (prev : option dict) (now : Z) : result Outcome :=
  if truth (get payload "stop_hook_active" VNone) then Ok Nothing
  else if negb (String.eqb (or_default enabled "0") "1") then Ok Nothing
  else
    match cfg with
    | None => Ok Nothing
    | Some cfg =>
        let base_branch := base_of base_env cfg in
        let files := _git_diff_files (git base_branch) in
        match files with
        | [] => Ok Nothing
        | _ =>
            let fp := _fingerprint files in
            debounce_s <- int_of_str (or_default debounce_env "300") ;;
            held <-
              match prev with
              | None | Some [] => Ok false
              | Some prev =>
                  if Guard.equals_str (lookup "diff_fingerprint" prev) fp
                  then
                    last_ts <- int (get prev "timestamp" (VInt 0)) ;;
                    Ok (now - last_ts <? debounce_s)
                  else Ok false
              end ;;
            if (held : bool) then Ok Nothing
            else
              profiles <- _select_profiles cfg files ;;
              match profiles with
              | [] => Ok Nothing
              | _ =>
                  if String.eqb (or_default autorun_env "0") "1"
                  then Ok (RunExecutor (Executor.join "," profiles)
                             base_branch)
                  else Ok Nothing
              end
        end
    end.

End Orchestrator.

(* ================================================================== *)
(** ** Notions used to state the properties *)
(* ================================================================== *)

Import Py.

(** The verdict of the guard's matcher on one pattern. *)
Definition guard_hit (path pat : string) : bool :=
  match path_match (parse_parts (Guard._posix path)) pat with
  | Ok b => b
  | Raise _ => fnmatchcase (Guard._posix path) pat
  end.

(** The verdict of the executor's matcher on one pattern. *)
Definition executor_hit (file_path pat : string) : bool :=
  match path_match (parse_parts (Assurance._posix file_path)) pat with
  | Ok b => b
  | Raise _ => String.eqb file_path pat
  end.

(** The decision a run of the hook printed, if it printed one. *)
Definition verdict (r : list Guard.Event * (unit + Guard.Halt))
  : option Guard.Decision :=
  match r with
  | (_, inr (Guard.SystemExit out)) => Some (Guard.permissionDecision out)
  | _ => None
  end.

(** The exception a run of the hook died of, if it did. *)
Definition uncaught (r : list Guard.Event * (unit + Guard.Halt))
  : option exn :=
  match r with
  | (_, inr (Guard.Uncaught e)) => Some e
  | _ => None
  end.

(** The audit events a run of the hook emitted. *)
Definition trail (r : list Guard.Event * (unit + Guard.Halt))
  : list Guard.Event := fst r.

(** The word the audit event carries for a decision. *)
Definition label (d : Guard.Decision) : string :=
  match d with
  | Guard.Deny => "block"
  | Guard.Ask => "ask"
  | Guard.Allow => "allow"
  end.

(** A rule applies to a command: its pattern is not empty and matches. *)
Definition rule_matches (cmd : string) (r : Guard.Rule) : bool :=
  negb (String.eqb (Guard.or_default (Guard.pattern r) "") "")
  && fnmatchcase cmd (Guard.or_default (Guard.pattern r) "").

(** The reason a rule gives when it applies. *)
Definition reason_of (r : Guard.Rule) : string :=
  Guard.or_default (Guard.reason r) "matched security policy".

(** The freshness test in the words of the specification, for a record
    whose timestamp reads as [ts]. *)
Definition spec_fresh (state : dict) (fp : string) (now max_age ts : Z)
  : Prop :=
  lookup "diff_fingerprint" state = Some (VStr fp) /\ now - ts <= max_age.

(** The overall exit code the guard reads off a record. *)
Definition overall_exit_code (state : dict) : Z :=
  match int (get state "exit_code" (VInt 999)) with
  | Ok z => z
  | Raise _ => 999
  end.

(** The exit code of the designated profile reads as [rc]. *)
Definition gateway_code (state : dict) (rc : Z) : Prop :=
  exists codes,
    get state "profile_exit_codes" (VDict []) = VDict codes
    /\ int (get codes "authn-gateway" (VInt 999)) = Ok rc.

(** A value [int] cannot turn into an integer. *)
Definition not_coercible (v : value) : Prop := exists e, int v = Raise e.

(** *** A sample installation *)

Definition sample_policy : Guard.Policy :=
  {| Guard.bash_blocked :=
       [ {| Guard.pattern := Some "rm -rf *";
            Guard.reason := Some "destructive delete" |};
         {| Guard.pattern := Some "git push --force";
            Guard.reason := Some "rewrites history" |} ];
     Guard.bash_confirm :=
       [ {| Guard.pattern := Some "git push*"; Guard.reason := None |} ];
     Guard.paths_zeroAccess := ["auth/**"; "*.pem"];
     Guard.paths_confirmWrite := ["src/auth/*"];
     Guard.evidence_require_success_for_paths := ["policy/*.yaml"];
     Guard.evidence_require_confirm_without_evidence_for_paths :=
       ["src/login.go"];
     Guard.evidence_max_age_seconds := 3600 |}.

Definition sample_config : Guard.Config :=
  {| Guard.base_branch := "origin/develop"; Guard.policy := sample_policy |}.

Definition call (tool : string) (input : Guard.ToolInput) : Guard.Payload :=
  {| Guard.session_id := VStr "s-1"; Guard.tool_name := tool;
     Guard.tool_input := input |}.

Definition edit (path : string) : Guard.Payload :=
  call "Edit" (Guard.InputDict [("file_path", path)]).

Definition bash (cmd : string) : Guard.Payload :=
  call "Bash" (Guard.InputDict [("command", cmd)]).

(** The diff consists of [src/login.go]. *)
Definition sample_diff : option string := Some "src/login.go".

Definition sample_fp : string :=
  Eval vm_compute in Guard._fingerprint (Guard._git_diff_files sample_diff).

(** A record of a passing run for the sample diff, taken at [ts]. *)
Definition passing_record (ts : value) : dict :=
  [ ("timestamp", ts); ("base_branch", VStr "origin/develop");
    ("diff_fingerprint", VStr sample_fp);
    ("profiles", VList [VStr "authn-gateway"]);
    ("exit_code", VInt 0);
    ("profile_exit_codes", VDict [("authn-gateway", VInt 0)]);
    ("status", VStr "PASS") ].

(** The same record with the time stamp written the way [run.json] has
    it, as text. *)
Definition text_stamped_record : dict :=
  passing_record (VStr "2024-05-01T10:00:00+0000").

(** A record whose designated profile code is a float beyond the range,
    which [json.loads] reads from [1e999]. *)
Definition overflowing_record : dict :=
  [ ("timestamp", VInt 1000);
    ("diff_fingerprint", VStr sample_fp);
    ("exit_code", VInt 0);
    ("profile_exit_codes",
       VDict [("authn-gateway", VFloat (FInf false))]) ].

(** What [format] gives on the template [./run.sh {profile}]; another
    template is taken to name a field that is not given. *)
Definition sample_template : string := "./run.sh {profile}".

Definition sample_format (tpl profile : string) : result string :=
  if String.eqb tpl sample_template then Ok (String.append "./run.sh " profile)
  else Raise KeyError.

(** A runner for the executor: the world counts the commands run, and
    the profile [typecheck] is the one whose tooling is broken. *)
Definition sample_runner (w : nat) (cmd : string) : Z * nat :=
  (if String.eqb cmd "./run.sh typecheck" then 2
   else if String.eqb cmd "./run.sh lint" then 3 else 0, S w).

(** What the guard reads off [passing_record] while it is fresh. *)
Definition sample_evidence : Guard.Evidence :=
  {| Guard.evidence_pass := true; Guard.ran_fresh_for_diff := true;
     Guard.authn_gateway_pass := true;
     Guard.profile_exit_codes := VDict [("authn-gateway", VInt 0)] |}.

(** A record of a run that ended in a tooling error, time stamp as text. *)
Definition tooling_error_record : dict :=
  [ ("timestamp", VStr "2024-05-01T10:00:00+0000");
    ("diff_fingerprint", VStr sample_fp);
    ("exit_code", VInt 2);
    ("profile_exit_codes", VDict [("authn-gateway", VInt 2)]);
    ("status", VStr "TOOLING_ERROR") ].

(** The float beyond the range as the overall exit code instead. *)
Definition overflowing_overall_record : dict :=
  [ ("timestamp", VInt 1000);
    ("diff_fingerprint", VStr sample_fp);
    ("exit_code", VFloat (FInf false));
    ("profile_exit_codes", VDict [("authn-gateway", VInt 0)]) ].

(** The glob engine rejects the pattern. *)
Definition rejected (pat : string) : Prop :=
  forall p : PurePosixPath, exists e, path_match p pat = Raise e.

(** A character that [fnmatch.translate] copies as a literal. *)
Definition plain (c : ascii) : bool :=
  negb (is_char 42 c) && negb (is_char 63 c) && negb (is_char 91 c).

Definition dot_or_slash (c : ascii) : bool := is_char 46 c || is_char 47 c.

(** *** Further notions *)

(** The list a JSON value stands for where a bucket is expected. *)
Definition as_list (v : value) : list value :=
  match v with
  | VList l => l
  | _ => []
  end.

(** How strict a decision is. *)
Definition strictness (d : Guard.Decision) : Z :=
  match d with
  | Guard.Allow => 0
  | Guard.Ask => 1
  | Guard.Deny => 2
  end.

(** The tools the guard has rules for. *)
Definition governed (tool : string) : bool :=
  String.eqb tool "Bash" || Guard.is_file_tool tool.

(** Whether the guard's matcher finds the path in a bucket. *)
Definition in_bucket (path : string) (bucket : list string) : bool :=
  match Guard._match_any path bucket with
  | Ok b => b
  | Raise _ => false
  end.

(** The chain of rules for a file call, as the specification lists it
    (4a to 4e), over the verdicts of the matcher and the evidence flags. *)
Definition spec_file_decision (policy : Guard.Policy) (tool path : string)
  (ev : Guard.Evidence) : Guard.Decision :=
  if in_bucket path (Guard.paths_zeroAccess policy) then Guard.Deny
  else if in_bucket path (Guard.evidence_require_success_for_paths policy)
          && negb (Guard.authn_gateway_pass ev) then Guard.Deny
  else if in_bucket path
            (Guard.evidence_require_confirm_without_evidence_for_paths policy)
          && negb (Guard.ran_fresh_for_diff ev) then Guard.Ask
  else if Guard.is_write_tool tool
          && in_bucket path (Guard.paths_confirmWrite policy)
          && negb (Guard.ran_fresh_for_diff ev) then Guard.Ask
  else Guard.Allow.

(** A second installation, whose zeroAccess bucket holds key files only. *)
Definition keys_only_policy : Guard.Policy :=
  {| Guard.bash_blocked := Guard.bash_blocked sample_policy;
     Guard.bash_confirm := Guard.bash_confirm sample_policy;
     Guard.paths_zeroAccess := ["*.pem"];
     Guard.paths_confirmWrite := ["src/auth/*"];
     Guard.evidence_require_success_for_paths := ["policy/*.yaml"];
     Guard.evidence_require_confirm_without_evidence_for_paths :=
       ["src/login.go"];
     Guard.evidence_max_age_seconds := 3600 |}.

Definition keys_only_config : Guard.Config :=
  {| Guard.base_branch := "origin/develop"; Guard.policy := keys_only_policy |}.

(** A call of a tool the guard has no rules for. *)
Definition glob_call : Guard.Payload :=
  call "Glob" (Guard.InputDict [("pattern", "auth/**")]).

(** The character that [_posix] replaces. *)
Definition is_backslash (c : ascii) : bool := is_char 92 c.

(** The event with another time stamp. *)
Definition restamp (t : Z) (e : Guard.Event) : Guard.Event :=
  {| Guard.ev_ts := t;
     Guard.ev_session_id := Guard.ev_session_id e;
     Guard.ev_tool := Guard.ev_tool e;
     Guard.ev_decision := Guard.ev_decision e;
     Guard.ev_reason := Guard.ev_reason e;
     Guard.ev_command := Guard.ev_command e;
     Guard.ev_path := Guard.ev_path e;
     Guard.ev_base_branch := Guard.ev_base_branch e;
     Guard.ev_fingerprint := Guard.ev_fingerprint e;
     Guard.ev_profile_exit_codes := Guard.ev_profile_exit_codes e |}.

(** A digit of a lower-case hexadecimal number. *)
Definition is_hex_char (c : ascii) : bool :=
  let n := ord c in
  ((48 <=? n) && (n <=? 57)) || ((97 <=? n) && (n <=? 102)).

(** Each string is at most the next one. *)
Fixpoint ascending (l : list string) : bool :=
  match l with
  | x :: (y :: _) as rest => String.leb x y && ascending rest
  | _ => true
  end.

(** What [git diff --name-only] prints for two files, with a blank line
    and blanks around the names. *)
Definition untidy_diff : option string :=
  Some (str (chars "  src/b.go " ++ [ascii_of_nat 10; ascii_of_nat 10]
             ++ chars "src/a.go" ++ [ascii_of_nat 10])).

(** The exit code the run recorded last for a profile. *)
Fixpoint last_code (name : string) (ran : list (string * Z)) : option Z :=
  match ran with
  | [] => None
  | (p, rc) :: rest =>
      match last_code name rest with
      | Some rc' => Some rc'
      | None => if String.eqb name p then Some rc else None
      end
  end.

(** Whether a list is empty. *)
Definition is_nil {A : Type} (l : list A) : bool :=
  match l with
  | [] => true
  | _ => false
  end.

(** The strings among the values a list of patterns holds. *)
Definition strings_of (pats : list value) : list string :=
  flat_map (fun v => match v with VStr s => [s] | _ => [] end) pats.

(** The values that can be iterated. *)
Definition iterable (v : value) : bool :=
  match v with
  | VList _ | VStr _ | VDict _ => true
  | _ => false
  end.

(** The patterns a value of [triggers] stands for: the strings it yields
    when iterated. *)
Definition patterns_of (triggers : value) : list string :=
  match triggers with
  | VList l =>
      flat_map (fun v => match v with VStr s => [s] | _ => [] end) l
  | VStr s => map (fun c => String c "") (chars s)
  | VDict d => map fst (PyDict.items d)
  | _ => []
  end.

(** The value of [triggers] of an entry that takes part in the
    selection: the name is not [all], the entry is an object, its
    [auto_select] is not [false] and its [triggers] is not empty, zero,
    [false] or [None]. *)
Definition live_triggers (name : string) (p : value) : option value :=
  if String.eqb name "all" then None
  else match p with
       | VDict d =>
           if Executor.is_False (lookup "auto_select" d) then None
           else if PyDict.truth (get d "triggers" (VList []))
                then Some (get d "triggers" (VList []))
                else None
       | _ => None
       end.

(** A profile is triggered by a list of changed files: it takes part in
    the selection and one of its patterns hits one of the files. *)
Definition triggered (files : list string) (name : string) (p : value)
  : bool :=
  match live_triggers name p with
  | Some triggers =>
      existsb (fun f => existsb (executor_hit f) (patterns_of triggers)) files
  | None => false
  end.

(** An entry whose [triggers] cannot be iterated: a number or [true]. *)
Definition breaks (name : string) (p : value) : bool :=
  match live_triggers name p with
  | Some (VList _) | Some (VStr _) | Some (VDict _) | None => false
  | Some _ => true
  end.

(** The entries of the profiles table, when the configuration has a
    table that is an object, or none. *)
Definition table (cfg : Executor.Cfg) : option dict :=
  match Executor.profiles cfg with
  | None => Some []
  | Some (VDict profs) => Some (PyDict.items profs)
  | Some _ => None
  end.

(** A name that goes through a comma-separated list unchanged. *)
Definition tidy_name (name : string) : bool :=
  forallb (fun c => negb (is_char 44 c)) (chars name)
  && negb (String.eqb name "")
  && String.eqb (strip name) name.

(** An object of the profiles table. *)
Definition profile (fields : dict) : value := VDict fields.

(** A profiles table with the entry [all], an entry switched off, an
    entry that is not an object and two live ones. *)
Definition sample_profiles : Executor.Cfg :=
  {| Executor.base_branch := None;
     Executor.profiles :=
       Some (VDict
         [ ("all", profile [("triggers", VList [VStr "**/*"; VStr "*"])]);
           ("unit", profile [("triggers", VList [VStr "src/*.go"])]);
           ("slow", profile [("auto_select", VBool false);
                             ("triggers", VList [VStr "src/*.go"])]);
           ("notes", VStr "to do");
           ("authn-gateway",
             profile [("auto_select", VInt 0);
                      ("triggers",
                        VList [VStr "login.go"; VStr "policy/*.yaml"])]) ])
  |}.

(** A table in which one entry has a number where its patterns should
    be. *)
Definition broken_profiles : Executor.Cfg :=
  {| Executor.base_branch := None;
     Executor.profiles :=
       Some (VDict
         [ ("unit", profile [("triggers", VList [VStr "src/*.go"])]);
           ("slow", profile [("triggers", VInt 1)]) ]) |}.

(** The orchestrator at the end of a turn in which [src/login.go] was
    changed, with the automatic run switched on. *)
Definition stop_after_edit (prev : option dict) (now : Z)
  : result Orchestrator.Outcome :=
  Orchestrator.main [] (Some "1") None None (Some "1") (Some sample_profiles)
    (fun _ => sample_diff) prev now.

(** The record the executor leaves after a run of [lint], which fails,
    and [authn-gateway], which passes, on the sample diff. *)
Definition failing_lint_record : dict :=
  [ ("timestamp", VInt 1000); ("base_branch", VStr "origin/develop");
    ("diff_fingerprint", VStr sample_fp);
    ("profiles", VList [VStr "lint"; VStr "authn-gateway"]);
    ("exit_code", VInt 1);
    ("profile_exit_codes",
      VDict [("lint", VInt 3); ("authn-gateway", VInt 0)]);
    ("status", VStr "FAIL"); ("run_id", VStr "r-1");
    ("run_json", VStr "/tmp/run.json") ].

(** A file call that names its path under [key]. *)
Definition file_call (session : value) (tool key path : string)
  : Guard.Payload :=
  {| Guard.session_id := session; Guard.tool_name := tool;
     Guard.tool_input := Guard.InputDict [(key, path)] |}.

(* ================================================================== *)
(** ** Properties *)
(* ================================================================== *)

(** *** Strings *)

Lemma str_chars (s : string) : str (chars s) = s.
Proof. apply string_of_list_ascii_of_string. Qed.

Lemma chars_str (l : list ascii) : chars (str l) = l.
Proof. apply list_ascii_of_string_of_list_ascii. Qed.

Lemma chars_inj (s t : string) : chars s = chars t -> s = t.
Proof.
  intros H. rewrite <- (str_chars s), <- (str_chars t). now rewrite H.
Qed.

Lemma chars_length (s : string) : List.length (chars s) = String.length s.
Proof. induction s; simpl; congruence. Qed.

Lemma is_char_eq (n : Z) (c : ascii) :
  0 <= n < 256 -> is_char n c = true -> c = ascii_of_nat (Z.to_nat n).
Proof.
  unfold is_char, ord. intros Hn H. apply Z.eqb_eq in H.
  rewrite <- H, Nat2Z.id. symmetry. apply ascii_nat_embedding.
Qed.

Lemma eqb_slash (c : ascii) : Ascii.eqb c "/"%char = is_char 47 c.
Proof.
  destruct (Ascii.eqb_spec c "/"%char) as [->|Hne]; [reflexivity|].
  destruct (is_char 47 c) eqn:E; [|reflexivity].
  apply is_char_eq in E; [|lia]. now elim Hne.
Qed.

(** *** Matching a pattern without wildcards is comparing *)

Lemma translate_from_plain (fuel : nat) (l : list ascii) (res : list token) :
  (List.length l <= fuel)%nat ->
  forallb plain l = true ->
  translate_from fuel l res = rev res ++ map TLit l.
Proof.
  revert l res. induction fuel as [|fuel IH]; intros l res Hlen Hpl.
  - destruct l; [simpl; now rewrite app_nil_r | simpl in Hlen; lia].
  - destruct l as [|c l]; [simpl; now rewrite app_nil_r|].
    simpl in Hpl, Hlen. apply andb_true_iff in Hpl as [Hc Hl].
    unfold plain in Hc.
    apply andb_true_iff in Hc as [Hc H91].
    apply andb_true_iff in Hc as [H42 H63].
    apply negb_true_iff in H42, H63, H91.
    cbn [translate_from]. rewrite H42, H63, H91.
    rewrite IH by (assumption || lia).
    simpl. now rewrite <- app_assoc.
Qed.

Lemma tokens_match_literal (l name : list ascii) :
  tokens_match (map TLit l) name = true <-> name = l.
Proof.
  revert name. induction l as [|c l IH]; intros name; simpl.
  - destruct name; split; congruence.
  - destruct name as [|c' name]; [split; congruence|].
    unfold token_accepts. rewrite andb_true_iff, IH.
    split.
    + intros [Hc ->]. apply Ascii.eqb_eq in Hc. now subst.
    + intros H. injection H as -> ->. split; [apply Ascii.eqb_refl | reflexivity].
Qed.

Lemma fnmatchcase_plain (name pat : string) :
  forallb plain (chars pat) = true ->
  fnmatchcase name pat = String.eqb name pat.
Proof.
  intros Hpl. unfold fnmatchcase, translate.
  rewrite translate_from_plain by (rewrite ?chars_length; auto).
  simpl. apply eq_true_iff_eq. rewrite tokens_match_literal, String.eqb_eq.
  split; [apply chars_inj | now intros ->].
Qed.

(** *** Which patterns the glob engine rejects *)

Lemma split_on_head (sep : ascii) (l cur : list ascii) :
  exists seg rest, split_on sep cur l = str (rev cur ++ seg) :: rest.
Proof.
  revert cur. induction l as [|c l IH]; intros cur; simpl.
  - exists [], []. now rewrite app_nil_r.
  - destruct (Ascii.eqb c sep).
    + exists [], (split_on sep [] l). now rewrite app_nil_r.
    + destruct (IH (c :: cur)) as (seg & rest & E).
      exists (c :: seg), rest. rewrite E. simpl. now rewrite <- app_assoc.
Qed.

Lemma str_dot_singleton (l : list ascii) :
  str l = "" \/ str l = "." -> l = [] \/ l = ["."%char].
Proof.
  intros [H|H]; apply (f_equal chars) in H; rewrite chars_str in H; auto.
Qed.

Lemma split_on_dots (l cur : list ascii) :
  Forall (fun x => x = "" \/ x = ".") (split_on "/"%char cur l) ->
  forallb dot_or_slash l = true.
Proof.
  revert cur. induction l as [|c l IH]; intros cur H; [reflexivity|].
  simpl in *. rewrite eqb_slash in H. unfold dot_or_slash at 1.
  destruct (is_char 47 c) eqn:E47.
  - rewrite orb_true_r. simpl. inversion H; subst. eauto.
  - rewrite orb_false_r.
    assert (Hl := IH _ H). rewrite Hl, andb_true_r.
    destruct (split_on_head "/"%char l (c :: cur)) as (seg & rest & E).
    rewrite E in H. inversion H as [|? ? Hhd _]; subst.
    apply str_dot_singleton in Hhd. simpl in Hhd.
    rewrite <- app_assoc in Hhd. simpl in Hhd.
    destruct Hhd as [Hhd|Hhd].
    + destruct (rev cur); discriminate.
    + destruct (rev cur) as [|a [|b r]]; simpl in Hhd.
      * now injection Hhd as ->.
      * injection Hhd as _ Hnil. discriminate.
      * injection Hhd as _ Hnil. discriminate.
Qed.

Lemma filter_nil_Forall {A : Type} (f : A -> bool) (l : list A) :
  filter f l = [] -> Forall (fun x => f x = false) l.
Proof.
  induction l as [|a l IH]; simpl; [constructor|].
  destruct (f a) eqn:E; [discriminate|]. intros H. constructor; auto.
Qed.

Lemma raises_no_parts (p : PurePosixPath) (pat : string) (e : exn) :
  path_match p pat = Raise e -> parts (parse_parts pat) = [].
Proof.
  unfold path_match. destruct (parts (parse_parts pat)); [reflexivity|].
  repeat match goal with |- context [if ?b then _ else _] => destruct b end;
    discriminate.
Qed.

Lemma no_parts_rejected (pat : string) :
  parts (parse_parts pat) = [] -> rejected pat.
Proof.
  intros H p. exists ValueError. unfold path_match. now rewrite H.
Qed.

Lemma no_parts_dots (pat : string) :
  parts (parse_parts pat) = [] -> forallb dot_or_slash (chars pat) = true.
Proof.
  unfold parse_parts, splitroot.
  destruct (chars pat) as [|c l] eqn:Ec.
  - reflexivity.
  - destruct (is_char 47 c) eqn:E47.
    + destruct (Nat.eqb _ 2); simpl; discriminate.
    + simpl. intros H. apply filter_nil_Forall in H.
      unfold split in H. rewrite Ec in H.
      apply (split_on_dots (c :: l) []).
      eapply Forall_impl; [|exact H]. intros x Hx. simpl in Hx.
      apply andb_false_iff in Hx as [Hx|Hx]; apply negb_false_iff in Hx;
        apply String.eqb_eq in Hx; auto.
Qed.

Lemma dot_or_slash_plain (l : list ascii) :
  forallb dot_or_slash l = true -> forallb plain l = true.
Proof.
  induction l as [|c l IH]; simpl; [reflexivity|].
  rewrite !andb_true_iff. intros [Hc Hl]. split; [|auto].
  unfold dot_or_slash in Hc. apply orb_true_iff in Hc as [Hc|Hc];
    (apply is_char_eq in Hc; [|lia]); subst c; reflexivity.
Qed.

(** On a pattern the glob engine rejects, [fnmatchcase] is equality. *)
Lemma fnmatchcase_rejected (name pat : string) :
  rejected pat -> fnmatchcase name pat = String.eqb name pat.
Proof.
  intros Hrej. destruct (Hrej (parse_parts "")) as [e He].
  apply fnmatchcase_plain, dot_or_slash_plain, no_parts_dots.
  eapply raises_no_parts; eauto.
Qed.

(** *** The two matchers *)

Lemma guard_match_any_in (p : PurePosixPath) (path : string)
  (patterns : list string) :
  Guard._match_any_in p path patterns =
  Ok (existsb
        (fun pat =>
           match path_match p pat with
           | Ok b => b
           | Raise _ => fnmatchcase (Guard._posix path) pat
           end) patterns).
Proof.
  induction patterns as [|pat rest IH]; simpl; [reflexivity|].
  destruct (path_match p pat) as [[|]|e]; simpl; auto.
  destruct (fnmatchcase (Guard._posix path) pat); simpl; auto.
Qed.

Lemma guard_match_any (path : string) (patterns : list string) :
  Guard._match_any path patterns = Ok (existsb (guard_hit path) patterns).
Proof. apply guard_match_any_in. Qed.

Lemma executor_match_any_in (p : PurePosixPath) (file_path : string)
  (patterns : list string) :
  Assurance._match_any_in p file_path patterns =
  Ok (existsb
        (fun pat =>
           match path_match p pat with
           | Ok b => b
           | Raise _ => String.eqb file_path pat
           end) patterns).
Proof.
  induction patterns as [|pat rest IH]; simpl; [reflexivity|].
  destruct (path_match p pat) as [[|]|e]; simpl; auto.
  destruct (String.eqb file_path pat); simpl; auto.
Qed.

Lemma executor_match_any (file_path : string) (patterns : list string) :
  Assurance._match_any file_path patterns =
  Ok (existsb (executor_hit file_path) patterns).
Proof. apply executor_match_any_in. Qed.

(** *** Running the hook *)

(** Unfold the steps of the hook monad and replace the matcher by its
    verdict. *)
Ltac run_hook :=
  unfold Guard.seq, Guard.when, Guard._log_security_event,
    Guard.deny, Guard.ask, Guard.allow, Guard.halt, Guard.ret;
  rewrite ?guard_match_any; cbn [Guard.lift Guard.ret].

Lemma seq_halted {A B : Type} (m : Guard.hook A) (k : A -> Guard.hook B)
  (log log' : list Guard.Event) (h : Guard.Halt) :
  m log = (log', inr h) -> Guard.seq m k log = (log', inr h).
Proof. unfold Guard.seq. now intros ->. Qed.

Lemma file_tool_not_bash (name : string) :
  Guard.is_file_tool name = true -> String.eqb name "Bash" = false.
Proof.
  unfold Guard.is_file_tool. rewrite !orb_true_iff, !String.eqb_eq.
  intros [[->| ->]| ->]; reflexivity.
Qed.

Lemma handle_bash_halts (policy : Guard.Policy) (payload : Guard.Payload)
  (now : Z) (log : list Guard.Event) :
  exists log' out,
    Guard.handle_bash policy payload now log = (log', inr (Guard.SystemExit out)).
Proof.
  unfold Guard.handle_bash. run_hook.
  destruct (Guard.truthy (Guard._match_bash _ (Guard._bash_patterns policy "blocked")));
    [eauto|].
  destruct (Guard.truthy (Guard._match_bash _ (Guard._bash_patterns policy "confirm")));
    eauto.
Qed.

Lemma handle_file_halts (config : Guard.Config) (payload : Guard.Payload)
  (now : Z) (fp : string) (ev : Guard.Evidence) (log : list Guard.Event) :
  exists log' out,
    Guard.handle_file config payload now fp ev log
    = (log', inr (Guard.SystemExit out)).
Proof.
  unfold Guard.handle_file. run_hook.
  destruct (existsb _ (Guard._policy_lists _ "paths" "zeroAccess")); [eauto|].
  destruct (existsb _ (Guard._policy_lists _ "evidence" "require_success_for_paths")
            && negb (Guard.authn_gateway_pass ev)); [eauto|].
  destruct (existsb _ (Guard._policy_lists _ "evidence"
                         "require_confirm_without_evidence_for_paths")
            && negb (Guard.ran_fresh_for_diff ev)); [eauto|].
  destruct (Guard.is_write_tool (Guard.tool_name payload)).
  - cbn [Guard.lift Guard.ret].
    destruct (existsb _ (Guard._policy_lists _ "paths" "confirmWrite")
              && negb (Guard.ran_fresh_for_diff ev)); eauto.
  - cbn. eauto.
Qed.

(** With the engine on and the pack installed, [main] gathers the evidence
    and hands over to the branch of the tool. *)
Lemma main_enabled (config : Guard.Config) (payload : Guard.Payload)
  (git_output : option string) (state : option dict) (now : Z)
  (log : list Guard.Event) :
  Guard.main (Some "1") (Some config) payload git_output state now log =
  let fp := Guard._fingerprint (Guard._git_diff_files git_output) in
  match Guard.evidence_state state fp now
          (Guard.evidence_max_age_seconds (Guard.policy config)) with
  | Raise e => (log, inr (Guard.Uncaught e))
  | Ok ev =>
      if String.eqb (Guard.tool_name payload) "Bash"
      then Guard.handle_bash (Guard.policy config) payload now log
      else if Guard.is_file_tool (Guard.tool_name payload)
      then Guard.handle_file config payload now fp ev log
      else (log, inr (Guard.SystemExit
                        {| Guard.permissionDecision := Guard.Allow;
                           Guard.permissionDecisionReason := None |}))
  end.
Proof.
  unfold Guard.main. cbn [Guard.or_default String.eqb Ascii.eqb Bool.eqb negb
    Guard.when]. unfold Guard.seq at 1. cbn [Guard.ret].
  cbv zeta.
  destruct (Guard.evidence_state _ _ _ _) as [ev|e]; [|reflexivity].
  unfold Guard.seq at 1. cbn [Guard.lift Guard.ret].
  destruct (String.eqb (Guard.tool_name payload) "Bash") eqn:Eb.
  - cbn [Guard.when].
    destruct (handle_bash_halts (Guard.policy config) payload now log)
      as (log' & out & E).
    rewrite (seq_halted _ _ _ _ _ E). now rewrite E.
  - cbn [Guard.when]. unfold Guard.seq at 1. cbn [Guard.ret].
    destruct (Guard.is_file_tool (Guard.tool_name payload)).
    + cbn [Guard.when].
      destruct (handle_file_halts config payload now
                  (Guard._fingerprint (Guard._git_diff_files git_output)) ev log)
        as (log' & out & E).
      rewrite (seq_halted _ _ _ _ _ E). now rewrite E.
    + reflexivity.
Qed.

(** The file branch ends with one more event on the trail, and the event
    carries the decision that is printed. *)
Lemma handle_file_logs (config : Guard.Config) (payload : Guard.Payload)
  (now : Z) (fp : string) (ev : Guard.Evidence) (log : list Guard.Event) :
  exists e out,
    Guard.handle_file config payload now fp ev log
    = (log ++ [e], inr (Guard.SystemExit out))
    /\ Guard.ev_decision e = label (Guard.permissionDecision out).
Proof.
  unfold Guard.handle_file. run_hook.
  destruct (existsb _ (Guard._policy_lists _ "paths" "zeroAccess"));
    [do 2 eexists; split; reflexivity|].
  destruct (existsb _ (Guard._policy_lists _ "evidence" "require_success_for_paths")
            && negb (Guard.authn_gateway_pass ev));
    [do 2 eexists; split; reflexivity|].
  destruct (existsb _ (Guard._policy_lists _ "evidence"
                         "require_confirm_without_evidence_for_paths")
            && negb (Guard.ran_fresh_for_diff ev));
    [do 2 eexists; split; reflexivity|].
  destruct (Guard.is_write_tool (Guard.tool_name payload)).
  - cbn [Guard.lift Guard.ret].
    destruct (existsb _ (Guard._policy_lists _ "paths" "confirmWrite")
              && negb (Guard.ran_fresh_for_diff ev));
      do 2 eexists; split; reflexivity.
  - cbn. do 2 eexists; split; reflexivity.
Qed.

(** The decision of the file branch, rule by rule. *)
Lemma handle_file_verdict (config : Guard.Config) (payload : Guard.Payload)
  (now : Z) (fp : string) (ev : Guard.Evidence) (log : list Guard.Event) :
  let path := Guard.file_path_of (Guard.tool_input payload) in
  let hit := existsb (guard_hit path) in
  let policy := Guard.policy config in
  verdict (Guard.handle_file config payload now fp ev log) =
  Some
    (if hit (Guard.paths_zeroAccess policy) then Guard.Deny
     else if hit (Guard.evidence_require_success_for_paths policy)
             && negb (Guard.authn_gateway_pass ev) then Guard.Deny
     else if hit (Guard.evidence_require_confirm_without_evidence_for_paths
                    policy)
             && negb (Guard.ran_fresh_for_diff ev) then Guard.Ask
     else if Guard.is_write_tool (Guard.tool_name payload)
             && hit (Guard.paths_confirmWrite policy)
             && negb (Guard.ran_fresh_for_diff ev) then Guard.Ask
     else Guard.Allow).
Proof.
  unfold Guard.handle_file. run_hook.
  cbn [Guard._policy_lists String.eqb Ascii.eqb Bool.eqb andb].
  cbv zeta.
  destruct (existsb _ (Guard.paths_zeroAccess _)); [reflexivity|].
  destruct (existsb _ (Guard.evidence_require_success_for_paths _)
            && negb (Guard.authn_gateway_pass ev)); [reflexivity|].
  destruct (existsb _ (Guard.evidence_require_confirm_without_evidence_for_paths _)
            && negb (Guard.ran_fresh_for_diff ev)); [reflexivity|].
  destruct (Guard.is_write_tool (Guard.tool_name payload)).
  - cbn [Guard.lift Guard.ret andb].
    destruct (existsb _ (Guard.paths_confirmWrite _)
              && negb (Guard.ran_fresh_for_diff ev)); reflexivity.
  - reflexivity.
Qed.

(** The decision of a file call once the evidence is read. *)
Lemma main_file_verdict (config : Guard.Config) (payload : Guard.Payload)
  (git_output : option string) (state : option dict) (now : Z)
  (ev : Guard.Evidence) :
  Guard.is_file_tool (Guard.tool_name payload) = true ->
  Guard.evidence_state state
    (Guard._fingerprint (Guard._git_diff_files git_output)) now
    (Guard.evidence_max_age_seconds (Guard.policy config)) = Ok ev ->
  verdict (Guard.main (Some "1") (Some config) payload git_output state now [])
  = verdict (Guard.handle_file config payload now
               (Guard._fingerprint (Guard._git_diff_files git_output)) ev []).
Proof.
  intros Htool Hev. rewrite main_enabled. cbv zeta. rewrite Hev.
  now rewrite (file_tool_not_bash _ Htool), Htool.
Qed.

(** When the evidence cannot be read the hook dies before it decides,
    whatever the tool and the policy. *)
Lemma main_dies_with_the_evidence (config : Guard.Config)
  (payload : Guard.Payload) (git_output : option string)
  (state : option dict) (now : Z) (e : exn) :
  Guard.evidence_state state
    (Guard._fingerprint (Guard._git_diff_files git_output)) now
    (Guard.evidence_max_age_seconds (Guard.policy config)) = Raise e ->
  Guard.main (Some "1") (Some config) payload git_output state now []
  = ([], inr (Guard.Uncaught e)).
Proof. intros Hev. rewrite main_enabled. cbv zeta. now rewrite Hev. Qed.

(** A zeroAccess path is denied whenever the evidence can be read. *)
Lemma zeroAccess_denied_when_evidence_reads (config : Guard.Config)
  (payload : Guard.Payload) (git_output : option string)
  (state : option dict) (now : Z) (ev : Guard.Evidence) :
  Guard.is_file_tool (Guard.tool_name payload) = true ->
  Guard.evidence_state state
    (Guard._fingerprint (Guard._git_diff_files git_output)) now
    (Guard.evidence_max_age_seconds (Guard.policy config)) = Ok ev ->
  Guard._match_any (Guard.file_path_of (Guard.tool_input payload))
    (Guard.paths_zeroAccess (Guard.policy config)) = Ok true ->
  verdict (Guard.main (Some "1") (Some config) payload git_output state now [])
  = Some Guard.Deny.
Proof.
  intros Htool Hev Hzero.
  rewrite (main_file_verdict _ _ _ _ _ _ Htool Hev), handle_file_verdict.
  cbv zeta. rewrite guard_match_any in Hzero. injection Hzero as ->.
  reflexivity.
Qed.

(** C1: a file action on a zeroAccess path must be denied whatever the
    evidence record holds. The guard reads the record before it looks at
    the path: with a record whose time stamp is text, as [run.json] writes
    it, the edit of [auth/policy.yaml] (zeroAccess rule [auth/**]) ends in
    an uncaught [ValueError], with no decision and no audit event. *)
Theorem zeroAccess_lost_on_text_timestamp :
  let r := Guard.main (Some "1") (Some sample_config)
             (edit "auth/policy.yaml") sample_diff
             (Some text_stamped_record) 1714557700 [] in
  Guard._match_any "auth/policy.yaml"
    (Guard.paths_zeroAccess sample_policy) = Ok true
  /\ verdict r = None
  /\ uncaught r = Some ValueError
  /\ trail r = [].
Proof. vm_compute. repeat split; reflexivity. Qed.

(** *** The evidence state *)

Lemma equals_str_true (v : option value) (s : string) :
  Guard.equals_str v s = true <-> v = Some (VStr s).
Proof.
  unfold Guard.equals_str.
  destruct v as [[| | | |s'| |]|]; try (split; [discriminate|congruence]).
  rewrite String.eqb_eq. split; [now intros -> | congruence].
Qed.

(** The evidence block on a record that is not empty. *)
Lemma evidence_state_cons (kv : string * value) (rest : dict) (fp : string)
  (now max_age : Z) :
  let state := kv :: rest in
  Guard.evidence_state (Some state) fp now max_age =
  (ts <- int (get state "timestamp" (VInt 0)) ;;
   exit_code <- try_except (int (get state "exit_code" (VInt 999))) (Ok 999) ;;
   gateway <-
     match get state "profile_exit_codes" (VDict []) with
     | VDict codes =>
         authn_gateway_rc <-
           try_except_value_type
             (int (get codes "authn-gateway" (VInt 999))) (Ok 999) ;;
         Ok (Guard.equals_str (lookup "diff_fingerprint" state) fp
             && (now - ts <=? max_age) && (authn_gateway_rc =? 0))
     | _ => Ok false
     end ;;
   Ok {| Guard.evidence_pass :=
           Guard.equals_str (lookup "diff_fingerprint" state) fp
           && (now - ts <=? max_age) && (exit_code =? 0);
         Guard.ran_fresh_for_diff :=
           Guard.equals_str (lookup "diff_fingerprint" state) fp
           && (now - ts <=? max_age)
           && ((exit_code =? 0) || (exit_code =? 1));
         Guard.authn_gateway_pass := gateway;
         Guard.profile_exit_codes :=
           get state "profile_exit_codes" (VDict []) |}).
Proof. reflexivity. Qed.

Lemma try_except_999 (r : result Z) :
  try_except r (Ok 999) = Ok (match r with Ok z => z | Raise _ => 999 end).
Proof. now destruct r. Qed.

Lemma evidence_flags (state : dict) (fp : string) (now max_age ts : Z)
  (ev : Guard.Evidence) :
  int (get state "timestamp" (VInt 0)) = Ok ts ->
  Guard.evidence_state (Some state) fp now max_age = Ok ev ->
  let fresh :=
    Guard.equals_str (lookup "diff_fingerprint" state) fp
    && (now - ts <=? max_age) in
  Guard.evidence_pass ev = fresh && (overall_exit_code state =? 0)
  /\ Guard.ran_fresh_for_diff ev
     = fresh && ((overall_exit_code state =? 0)
                 || (overall_exit_code state =? 1))
  /\ (Guard.authn_gateway_pass ev = true <->
      fresh = true /\ gateway_code state 0).
Proof.
  intros Hts Hev. unfold gateway_code, overall_exit_code.
  destruct state as [|kv rest].
  - simpl in Hev. injection Hev as <-. cbn.
    repeat split; try discriminate.
    intros [_ (codes & Hc & Hrc)]. injection Hc as <-. discriminate.
  - rewrite evidence_state_cons in Hev. cbv zeta in Hev.
    generalize dependent (kv :: rest). clear kv rest. intros state Hts Hev.
    rewrite Hts, try_except_999 in Hev. cbn [bind] in Hev.
    destruct (get state "profile_exit_codes" (VDict [])) as [| | | | | |codes];
      cbn [bind] in Hev;
      try (injection Hev as <-; cbn; repeat split; try discriminate;
           intros [_ (c & Hc & _)]; discriminate).
    destruct (int (get codes "authn-gateway" (VInt 999))) as [g|[]] eqn:Eg;
      cbn [try_except_value_type bind] in Hev; try discriminate;
      injection Hev as <-; cbn;
      (split; [reflexivity|split; [reflexivity|]]).
    + rewrite andb_true_iff, Z.eqb_eq. split.
      * intros [H ->]. split; [assumption|]. now exists codes.
      * intros [H (c & Hc & Hrc)]. injection Hc as <-.
        rewrite Eg in Hrc. injection Hrc as ->. now split.
    + rewrite andb_false_r. split; [discriminate|].
      intros [_ (c & Hc & Hrc)]. injection Hc as <-. congruence.
    + rewrite andb_false_r. split; [discriminate|].
      intros [_ (c & Hc & Hrc)]. injection Hc as <-. congruence.
Qed.

(** C4: the freshness test behind every evidence gate is "the record's
    fingerprint is the current one and [now - timestamp <= max_age]", and
    the bound is inclusive: at an age equal to the window the record is
    fresh, one second later it is stale. *)
Theorem freshness_test_inclusive (state : dict) (fp : string)
  (now max_age ts : Z) (ev : Guard.Evidence) :
  int (get state "timestamp" (VInt 0)) = Ok ts ->
  Guard.evidence_state (Some state) fp now max_age = Ok ev ->
  (Guard.evidence_pass ev = true <->
     spec_fresh state fp now max_age ts /\ overall_exit_code state = 0)
  /\ (Guard.ran_fresh_for_diff ev = true <->
        spec_fresh state fp now max_age ts
        /\ (overall_exit_code state = 0 \/ overall_exit_code state = 1))
  /\ (Guard.authn_gateway_pass ev = true <->
        spec_fresh state fp now max_age ts /\ gateway_code state 0)
  /\ (now - ts = max_age ->
      lookup "diff_fingerprint" state = Some (VStr fp) ->
      overall_exit_code state = 0 ->
      Guard.evidence_pass ev = true /\ Guard.ran_fresh_for_diff ev = true)
  /\ (now - ts = max_age + 1 ->
      Guard.evidence_pass ev = false
      /\ Guard.ran_fresh_for_diff ev = false
      /\ Guard.authn_gateway_pass ev = false).
Proof.
  intros Hts Hev.
  destruct (evidence_flags _ _ _ _ _ _ Hts Hev) as (Hp & Hr & Ha).
  cbv zeta in Hp, Hr, Ha.
  assert (Hfresh :
    Guard.equals_str (lookup "diff_fingerprint" state) fp
    && (now - ts <=? max_age) = true <-> spec_fresh state fp now max_age ts).
  { unfold spec_fresh. now rewrite andb_true_iff, equals_str_true, Z.leb_le. }
  assert (Hstale : now - ts = max_age + 1 -> (now - ts <=? max_age) = false)
    by (intros; apply Z.leb_gt; lia).
  split; [|split; [|split; [|split]]].
  - rewrite Hp, andb_true_iff, Z.eqb_eq, Hfresh. reflexivity.
  - rewrite Hr, andb_true_iff, orb_true_iff, !Z.eqb_eq, Hfresh. reflexivity.
  - rewrite Ha, Hfresh. reflexivity.
  - intros Hage Hfp Hcode.
    assert (Hf : spec_fresh state fp now max_age ts) by (split; [assumption|lia]).
    apply Hfresh in Hf. rewrite Hp, Hr, Hf, Hcode. split; reflexivity.
  - intros Hage. rewrite Hp, Hr, (Hstale Hage), !andb_false_r.
    repeat split.
    destruct (Guard.authn_gateway_pass ev); [|reflexivity].
    destruct (proj1 Ha eq_refl) as [E _].
    rewrite (Hstale Hage), andb_false_r in E. discriminate.
Qed.

Lemma freshness_test_inclusive_witness :
  Guard.evidence_state (Some (passing_record (VInt 1000))) sample_fp 4600 3600
  = Ok sample_evidence
  /\ (Guard.ran_fresh_for_diff sample_evidence = true <->
      spec_fresh (passing_record (VInt 1000)) sample_fp 4600 3600 1000
      /\ (overall_exit_code (passing_record (VInt 1000)) = 0
          \/ overall_exit_code (passing_record (VInt 1000)) = 1)).
Proof.
  split; [reflexivity|].
  exact (proj1 (proj2 (freshness_test_inclusive
                         (passing_record (VInt 1000)) sample_fp 4600 3600 1000
                         sample_evidence eq_refl eq_refl))).
Defined.

(** *** The evidence gates of the file branch *)

(** The strict gate: a path that needs a verified run and is not
    zeroAccess is denied exactly when the designated profile has not
    passed, provided the evidence can be read. *)
Lemma success_gate_when_evidence_reads (config : Guard.Config)
  (payload : Guard.Payload) (git_output : option string)
  (state : option dict) (now : Z) (ev : Guard.Evidence) :
  let path := Guard.file_path_of (Guard.tool_input payload) in
  let policy := Guard.policy config in
  Guard.is_file_tool (Guard.tool_name payload) = true ->
  Guard.evidence_state state
    (Guard._fingerprint (Guard._git_diff_files git_output)) now
    (Guard.evidence_max_age_seconds policy) = Ok ev ->
  Guard._match_any path (Guard.paths_zeroAccess policy) = Ok false ->
  Guard._match_any path (Guard.evidence_require_success_for_paths policy)
  = Ok true ->
  (verdict (Guard.main (Some "1") (Some config) payload git_output state now [])
   = Some Guard.Deny
   <-> Guard.authn_gateway_pass ev = false).
Proof.
  intros path policy Htool Hev Hzero Hstrict.
  rewrite (main_file_verdict _ _ _ _ _ _ Htool Hev), handle_file_verdict.
  cbv zeta. rewrite guard_match_any in Hzero, Hstrict.
  injection Hzero as Hzero. injection Hstrict as Hstrict.
  fold path policy. rewrite Hzero, Hstrict. cbn [andb].
  destruct (Guard.authn_gateway_pass ev); cbn [negb]; [|tauto].
  split; [|discriminate].
  repeat match goal with
         | |- context [if ?b then _ else _] => destruct b
         end; discriminate.
Qed.

(** The soft gate: a path that needs confirmation without evidence, on
    which no deny applies, is asked about exactly when no run is on
    record for the diff, and allowed otherwise. *)
Lemma confirm_gate_when_evidence_reads (config : Guard.Config)
  (payload : Guard.Payload) (git_output : option string)
  (state : option dict) (now : Z) (ev : Guard.Evidence) :
  let path := Guard.file_path_of (Guard.tool_input payload) in
  let policy := Guard.policy config in
  Guard.is_file_tool (Guard.tool_name payload) = true ->
  Guard.evidence_state state
    (Guard._fingerprint (Guard._git_diff_files git_output)) now
    (Guard.evidence_max_age_seconds policy) = Ok ev ->
  Guard._match_any path (Guard.paths_zeroAccess policy) = Ok false ->
  (Guard._match_any path (Guard.evidence_require_success_for_paths policy)
   = Ok false \/ Guard.authn_gateway_pass ev = true) ->
  Guard._match_any path
    (Guard.evidence_require_confirm_without_evidence_for_paths policy)
  = Ok true ->
  verdict (Guard.main (Some "1") (Some config) payload git_output state now [])
  = Some (if Guard.ran_fresh_for_diff ev then Guard.Allow else Guard.Ask).
Proof.
  intros path policy Htool Hev Hzero Hstrict Hsoft.
  rewrite (main_file_verdict _ _ _ _ _ _ Htool Hev), handle_file_verdict.
  cbv zeta. rewrite !guard_match_any in *.
  injection Hzero as Hzero. injection Hsoft as Hsoft.
  fold path policy. rewrite Hzero, Hsoft. cbn [andb].
  assert (Hs : existsb (guard_hit path)
                 (Guard.evidence_require_success_for_paths policy)
               && negb (Guard.authn_gateway_pass ev) = false).
  { destruct Hstrict as [H|H].
    - injection H as ->. reflexivity.
    - rewrite H. apply andb_false_r. }
  rewrite Hs.
  destruct (Guard.ran_fresh_for_diff ev); cbn [negb]; [|reflexivity].
  now rewrite andb_false_r.
Qed.

(** An absent record, or an empty one, reads as no evidence at all. *)
Lemma no_record_no_evidence (fp : string) (now max_age : Z) :
  Guard.evidence_state None fp now max_age
  = Ok {| Guard.evidence_pass := false; Guard.ran_fresh_for_diff := false;
          Guard.authn_gateway_pass := false;
          Guard.profile_exit_codes := VDict [] |}
  /\ Guard.evidence_state (Some []) fp now max_age
     = Guard.evidence_state None fp now max_age.
Proof. split; reflexivity. Qed.

(** C2: a path in the require-verified-success bucket must be denied
    unless the designated profile passed for the current diff within the
    window. The record is read before the path is looked at, and reading
    it can raise: on [policy/gateway.yaml] a record with a text time stamp
    ends the hook in [ValueError], and a record whose designated profile
    code is the float [1e999] ends it in [OverflowError]; in neither run
    is anything denied. *)
Theorem success_gate_lost_on_unreadable_record :
  let r1 := Guard.main (Some "1") (Some sample_config)
              (edit "policy/gateway.yaml") sample_diff
              (Some text_stamped_record) 1714557700 [] in
  let r2 := Guard.main (Some "1") (Some sample_config)
              (edit "policy/gateway.yaml") sample_diff
              (Some overflowing_record) 2000 [] in
  Guard._match_any "policy/gateway.yaml"
    (Guard.paths_zeroAccess sample_policy) = Ok false
  /\ Guard._match_any "policy/gateway.yaml"
       (Guard.evidence_require_success_for_paths sample_policy) = Ok true
  /\ verdict r1 = None /\ uncaught r1 = Some ValueError
  /\ verdict r2 = None /\ uncaught r2 = Some OverflowError.
Proof. vm_compute. repeat split; reflexivity. Qed.

(** C3: a path in the require-confirmation-without-evidence bucket must
    be asked about unless a completed run is on record for the diff; a
    tooling-error record must yield ask. With the record of a
    tooling-error run whose time stamp is text, the edit of
    [src/login.go] ends in an uncaught [ValueError] and nothing is asked. *)
Theorem confirm_gate_lost_on_text_timestamp :
  let r := Guard.main (Some "1") (Some sample_config)
             (edit "src/login.go") sample_diff
             (Some tooling_error_record) 1714557700 [] in
  Guard._match_any "src/login.go"
    (Guard.evidence_require_confirm_without_evidence_for_paths sample_policy)
  = Ok true
  /\ overall_exit_code tooling_error_record = 2
  /\ verdict r = None
  /\ uncaught r = Some ValueError
  /\ trail r = [].
Proof. vm_compute. repeat split; reflexivity. Qed.

(** *** Codes that do not read as integers *)

Lemma missing_or_unreadable_is_999 (d : dict) (k : string) :
  lookup k d = None
  \/ (exists v, lookup k d = Some v /\ not_coercible v) ->
  match int (get d k (VInt 999)) with
  | Ok z => z = 999
  | Raise _ => True
  end.
Proof.
  unfold get, not_coercible. intros [->|(v & -> & e & ->)]; simpl; auto.
Qed.

(** An overall exit code that is missing or does not read as an integer
    counts neither as a pass nor as a completed run. *)
Lemma unreadable_exit_code_never_counts (state : dict) (fp : string)
  (now max_age : Z) (ev : Guard.Evidence) :
  lookup "exit_code" state = None
  \/ (exists v, lookup "exit_code" state = Some v /\ not_coercible v) ->
  Guard.evidence_state (Some state) fp now max_age = Ok ev ->
  overall_exit_code state = 999
  /\ Guard.evidence_pass ev = false
  /\ Guard.ran_fresh_for_diff ev = false.
Proof.
  intros Hcode Hev.
  assert (H999 : overall_exit_code state = 999).
  { apply missing_or_unreadable_is_999 in Hcode. unfold overall_exit_code.
    destruct (int (get state "exit_code" (VInt 999))); auto. }
  split; [assumption|].
  destruct state as [|kv rest].
  - simpl in Hev. injection Hev as <-. split; reflexivity.
  - destruct (int (get (kv :: rest) "timestamp" (VInt 0))) as [ts|e] eqn:Ets.
    + destruct (evidence_flags _ _ _ _ _ _ Ets Hev) as (Hp & Hr & _).
      cbv zeta in Hp, Hr. rewrite Hp, Hr, H999. cbn.
      now rewrite !andb_false_r.
    + rewrite evidence_state_cons in Hev. cbv zeta in Hev.
      rewrite Ets in Hev. discriminate.
Qed.

(** A designated profile code that is missing, or on which [int] raises
    [ValueError] or [TypeError], never opens the strict gate. *)
Lemma unreadable_gateway_code_never_passes (state codes : dict)
  (fp : string) (now max_age : Z) (ev : Guard.Evidence) :
  get state "profile_exit_codes" (VDict []) = VDict codes ->
  lookup "authn-gateway" codes = None
  \/ (exists v, lookup "authn-gateway" codes = Some v /\ not_coercible v) ->
  Guard.evidence_state (Some state) fp now max_age = Ok ev ->
  Guard.authn_gateway_pass ev = false.
Proof.
  intros Hcodes Hcode Hev.
  apply missing_or_unreadable_is_999 in Hcode.
  destruct state as [|kv rest].
  - simpl in Hev. now injection Hev as <-.
  - destruct (int (get (kv :: rest) "timestamp" (VInt 0))) as [ts|e] eqn:Ets.
    + destruct (evidence_flags _ _ _ _ _ _ Ets Hev) as (_ & _ & Ha).
      destruct (Guard.authn_gateway_pass ev); [|reflexivity].
      destruct (proj1 Ha eq_refl) as [_ (c & Hc & Hrc)].
      rewrite Hcodes in Hc. injection Hc as <-. rewrite Hrc in Hcode.
      discriminate.
    + rewrite evidence_state_cons in Hev. cbv zeta in Hev.
      rewrite Ets in Hev. discriminate.
Qed.

(** C10: a record whose overall exit code, or whose designated profile
    code, is missing or does not read as an integer must not make the
    arbitration raise; the code reads as 999. The float [1e999] does not
    read as an integer. As the overall exit code it is caught and counts
    as 999 (the edit of [src/login.go] is asked about); as the designated
    profile code the [OverflowError] it raises is not among the
    exceptions caught there, and the hook dies without a decision. *)
Theorem profile_code_overflow_is_not_caught :
  let r := Guard.main (Some "1") (Some sample_config)
             (edit "src/login.go") sample_diff
             (Some overflowing_record) 2000 [] in
  let r' := Guard.main (Some "1") (Some sample_config)
              (edit "src/login.go") sample_diff
              (Some overflowing_overall_record) 2000 [] in
  not_coercible (VFloat (FInf false))
  /\ gateway_code overflowing_overall_record 0
  /\ overall_exit_code overflowing_overall_record = 999
  /\ verdict r' = Some Guard.Ask
  /\ verdict r = None
  /\ uncaught r = Some OverflowError.
Proof.
  split; [exists OverflowError; reflexivity|].
  split; [exists [("authn-gateway", VInt 0)]; split; reflexivity|].
  vm_compute. repeat split; reflexivity.
Qed.

(** *** The Bash branch *)

Lemma match_bash_find (cmd : string) (rules : list Guard.Rule) :
  Guard._match_bash cmd rules
  = option_map reason_of (find (rule_matches cmd) rules).
Proof.
  induction rules as [|r rules IH]; simpl; [reflexivity|].
  unfold rule_matches at 1.
  destruct (negb (String.eqb (Guard.or_default (Guard.pattern r) "") "")
            && fnmatchcase cmd (Guard.or_default (Guard.pattern r) ""));
    [reflexivity | exact IH].
Qed.

Lemma handle_bash_logs (policy : Guard.Policy) (payload : Guard.Payload)
  (now : Z) (log : list Guard.Event) :
  exists e out,
    Guard.handle_bash policy payload now log
    = (log ++ [e], inr (Guard.SystemExit out))
    /\ Guard.ev_decision e = label (Guard.permissionDecision out).
Proof.
  unfold Guard.handle_bash. run_hook.
  destruct (Guard.truthy (Guard._match_bash _ (Guard._bash_patterns policy "blocked")));
    [do 2 eexists; split; reflexivity|].
  destruct (Guard.truthy (Guard._match_bash _ (Guard._bash_patterns policy "confirm")));
    do 2 eexists; split; reflexivity.
Qed.

Lemma handle_bash_verdict (policy : Guard.Policy) (payload : Guard.Payload)
  (now : Z) (log : list Guard.Event) :
  let cmd := Guard.command_of (Guard.tool_input payload) in
  verdict (Guard.handle_bash policy payload now log) =
  Some
    (if Guard.truthy (Guard._match_bash cmd (Guard.bash_blocked policy))
     then Guard.Deny
     else if Guard.truthy (Guard._match_bash cmd (Guard.bash_confirm policy))
     then Guard.Ask
     else Guard.Allow).
Proof.
  unfold Guard.handle_bash. run_hook.
  cbn [Guard._bash_patterns String.eqb Ascii.eqb Bool.eqb]. cbv zeta.
  destruct (Guard.truthy (Guard._match_bash _ (Guard.bash_blocked policy)));
    [reflexivity|].
  destruct (Guard.truthy (Guard._match_bash _ (Guard.bash_confirm policy)));
    reflexivity.
Qed.

Lemma main_bash_verdict (config : Guard.Config) (payload : Guard.Payload)
  (git_output : option string) (state : option dict) (now : Z)
  (ev : Guard.Evidence) :
  Guard.tool_name payload = "Bash" ->
  Guard.evidence_state state
    (Guard._fingerprint (Guard._git_diff_files git_output)) now
    (Guard.evidence_max_age_seconds (Guard.policy config)) = Ok ev ->
  verdict (Guard.main (Some "1") (Some config) payload git_output state now [])
  = verdict (Guard.handle_bash (Guard.policy config) payload now []).
Proof.
  intros Htool Hev. rewrite main_enabled. cbv zeta. rewrite Hev, Htool.
  reflexivity.
Qed.

(** C5, as the code has it: the command is matched after its leading and
    trailing blanks are stripped, against the rules whose pattern is not
    empty, the first such rule in list order giving the reason. The blocked
    bucket comes first: when a blocked rule applies (with a reason that is
    not empty) the verdict is deny, whatever the confirm bucket says; when
    no blocked rule applies and a confirm rule does, the verdict is ask;
    when no rule of either bucket applies the verdict is allow. *)
Theorem blocked_bucket_before_confirm (config : Guard.Config)
  (payload : Guard.Payload) (git_output : option string)
  (state : option dict) (now : Z) (ev : Guard.Evidence) :
  Guard.tool_name payload = "Bash" ->
  Guard.evidence_state state
    (Guard._fingerprint (Guard._git_diff_files git_output)) now
    (Guard.evidence_max_age_seconds (Guard.policy config)) = Ok ev ->
  let cmd := Guard.command_of (Guard.tool_input payload) in
  let blocked :=
    find (rule_matches cmd) (Guard.bash_blocked (Guard.policy config)) in
  let confirm :=
    find (rule_matches cmd) (Guard.bash_confirm (Guard.policy config)) in
  let r := Guard.main (Some "1") (Some config) payload git_output state now []
  in
  (forall rule, blocked = Some rule -> reason_of rule <> "" ->
     verdict r = Some Guard.Deny)
  /\ (blocked = None ->
      forall rule, confirm = Some rule -> reason_of rule <> "" ->
        verdict r = Some Guard.Ask)
  /\ (blocked = None -> confirm = None -> verdict r = Some Guard.Allow).
Proof.
  intros Htool Hev. cbv zeta.
  rewrite (main_bash_verdict _ _ _ _ _ _ Htool Hev), handle_bash_verdict.
  cbv zeta. rewrite !match_bash_find.
  assert (Htruthy : forall rule, reason_of rule <> "" ->
            Guard.truthy (option_map reason_of (Some rule)) = true).
  { intros rule Hne. simpl. apply negb_true_iff, String.eqb_neq, Hne. }
  split; [|split].
  - intros rule E Hne. now rewrite E, Htruthy.
  - intros E rule E' Hne. rewrite E, E'. simpl option_map at 1.
    cbn [Guard.truthy]. now rewrite Htruthy.
  - intros E E'. now rewrite E, E'.
Qed.

Lemma blocked_bucket_before_confirm_witness :
  find (rule_matches "git push --force")
    (Guard.bash_confirm sample_policy) <> None
  /\ verdict (Guard.main (Some "1") (Some sample_config)
                (bash "git push --force") sample_diff None 0 [])
     = Some Guard.Deny.
Proof.
  split; [discriminate|].
  refine (proj1 (blocked_bucket_before_confirm sample_config
                   (bash "git push --force") sample_diff None 0 _
                   eq_refl eq_refl)
            {| Guard.pattern := Some "git push --force";
               Guard.reason := Some "rewrites history" |} eq_refl _).
  discriminate.
Defined.

(** C5 as stated fails on the command as received: [rm -rf ] with a
    trailing blank matches the blocked pattern [rm -rf *] and is allowed,
    and [git push --force ] with a trailing blank matches no blocked
    pattern, only a confirm pattern, and is denied. *)
Lemma received_command_is_not_the_one_matched :
  let hit cmd bucket :=
    existsb (fun r => fnmatchcase cmd (Guard.or_default (Guard.pattern r) ""))
      bucket in
  let run cmd :=
    verdict (Guard.main (Some "1") (Some sample_config) (bash cmd)
               sample_diff None 0 []) in
  hit "rm -rf " (Guard.bash_blocked sample_policy) = true
  /\ run "rm -rf " = Some Guard.Allow
  /\ hit "git push --force " (Guard.bash_blocked sample_policy) = false
  /\ hit "git push --force " (Guard.bash_confirm sample_policy) = true
  /\ run "git push --force " = Some Guard.Deny.
Proof. vm_compute. repeat split; reflexivity. Qed.

(** A blocked rule whose reason is the empty string does not block. *)
Lemma empty_reason_does_not_block :
  let policy :=
    {| Guard.bash_blocked :=
         [ {| Guard.pattern := Some "rm -rf *"; Guard.reason := Some "" |} ];
       Guard.bash_confirm := [];
       Guard.paths_zeroAccess := []; Guard.paths_confirmWrite := [];
       Guard.evidence_require_success_for_paths := [];
       Guard.evidence_require_confirm_without_evidence_for_paths := [];
       Guard.evidence_max_age_seconds := 3600 |} in
  Guard._match_bash "rm -rf /" (Guard.bash_blocked policy) = Some ""
  /\ verdict (Guard.main (Some "1")
                (Some {| Guard.base_branch := "origin/develop";
                         Guard.policy := policy |})
                (bash "rm -rf /") sample_diff None 0 [])
     = Some Guard.Allow.
Proof. vm_compute. split; reflexivity. Qed.

(** *** The audit trail *)

Lemma main_disabled (enabled : option string) (config : option Guard.Config)
  (payload : Guard.Payload) (git_output : option string)
  (state : option dict) (now : Z) (log : list Guard.Event) :
  enabled <> Some "1" ->
  Guard.main enabled config payload git_output state now log
  = (log, inr (Guard.SystemExit
                 {| Guard.permissionDecision := Guard.Allow;
                    Guard.permissionDecisionReason := None |})).
Proof.
  intros Hoff. unfold Guard.main.
  assert (E : String.eqb (Guard.or_default enabled "0") "1" = false).
  { apply String.eqb_neq. destruct enabled as [s|]; simpl; congruence. }
  rewrite E. reflexivity.
Qed.

Lemma main_not_installed (payload : Guard.Payload)
  (git_output : option string) (state : option dict) (now : Z)
  (log : list Guard.Event) :
  Guard.main (Some "1") None payload git_output state now log
  = (log, inr (Guard.SystemExit
                 {| Guard.permissionDecision := Guard.Allow;
                    Guard.permissionDecisionReason := None |})).
Proof. reflexivity. Qed.

(** The part of the arbitration that is audited: with the engine on and
    the pack installed, every run on a Bash or file (Edit, Write, Read)
    call that ends in a decision, allow included, has emitted exactly one
    audit event before, and the event carries that decision. The two
    exits before it, engine disabled and configuration missing, return
    allow and emit no event, whatever the call. *)
Lemma governed_decisions_are_audited (enabled : option string)
  (config : option Guard.Config) (payload : Guard.Payload)
  (git_output : option string) (state : option dict) (now : Z) :
  let r := Guard.main enabled config payload git_output state now [] in
  (enabled <> Some "1" \/ config = None ->
   verdict r = Some Guard.Allow /\ trail r = [])
  /\ (enabled = Some "1" -> config <> None ->
      Guard.tool_name payload = "Bash"
      \/ Guard.is_file_tool (Guard.tool_name payload) = true ->
      forall d, verdict r = Some d ->
        exists e, trail r = [e] /\ Guard.ev_decision e = label d).
Proof.
  cbv zeta. split.
  - intros [Hoff|Hcfg].
    + rewrite main_disabled by assumption. split; reflexivity.
    + subst config. destruct (String.eqb_spec (Guard.or_default enabled "0") "1") as [E|E].
      * destruct enabled as [s|]; simpl in E; [subst s|discriminate].
        split; reflexivity.
      * rewrite main_disabled; [split; reflexivity|].
        intros ->. now apply E.
  - intros -> Hcfg Htool d Hd. destruct config as [config|]; [|now elim Hcfg].
    rewrite main_enabled in *. cbv zeta in *.
    destruct (Guard.evidence_state _ _ _ _) as [ev|e]; [|discriminate].
    destruct Htool as [Htool|Htool].
    + rewrite Htool in *. cbn [String.eqb Ascii.eqb Bool.eqb] in *.
      destruct (handle_bash_logs (Guard.policy config) payload now [])
        as (e & out & E & Hl).
      rewrite E in *. simpl in Hd. injection Hd as <-. now exists e.
    + rewrite (file_tool_not_bash _ Htool), Htool in *.
      destruct (handle_file_logs config payload now
                  (Guard._fingerprint (Guard._git_diff_files git_output)) ev [])
        as (e & out & E & Hl).
      rewrite E in *. simpl in Hd. injection Hd as <-. now exists e.
Qed.

Lemma governed_decisions_are_audited_witness :
  verdict (Guard.main None (Some sample_config) (bash "rm -rf /")
             sample_diff None 0 []) = Some Guard.Allow
  /\ exists e,
       trail (Guard.main (Some "1") (Some sample_config) (bash "ls")
                sample_diff None 0 []) = [e]
       /\ Guard.ev_decision e = label Guard.Allow.
Proof.
  split.
  - refine (proj1 (proj1 (governed_decisions_are_audited None
                            (Some sample_config) (bash "rm -rf /")
                            sample_diff None 0) (or_introl _))).
    discriminate.
  - refine (proj2 (governed_decisions_are_audited (Some "1")
                     (Some sample_config) (bash "ls") sample_diff None 0)
              eq_refl _ (or_introl eq_refl) Guard.Allow eq_refl).
    discriminate.
Defined.

(** C7 fails in the code: the module is to log every decision, and the
    exits of the Bash and file branches do; the engine-disabled exit and
    the missing-configuration exit print allow and hand nothing to
    [_log_security_event]. With the engine switched off, and with the
    pack not installed, the hook allows a blocked command and no event is
    emitted. *)
Theorem early_allows_leave_no_trace :
  let off := Guard.main None (Some sample_config) (bash "rm -rf /")
               sample_diff None 0 [] in
  let bare := Guard.main (Some "1") None (bash "rm -rf /")
                sample_diff None 0 [] in
  verdict off = Some Guard.Allow /\ trail off = []
  /\ verdict bare = Some Guard.Allow /\ trail bare = [].
Proof. vm_compute. repeat split; reflexivity. Qed.

(** A tool that is neither Bash nor a file tool is allowed by the last
    line of [main], which logs nothing either. *)
Lemma other_tools_allowed_without_event :
  let r := Guard.main (Some "1") (Some sample_config)
             (call "Glob" (Guard.InputDict [("pattern", "auth/**")]))
             sample_diff None 0 [] in
  verdict r = Some Guard.Allow /\ trail r = [].
Proof. vm_compute. split; reflexivity. Qed.

(** *** Sorting and the fingerprint *)

Lemma ascii_compare_trans_gt (a b c : ascii) :
  Ascii.compare a b <> Gt -> Ascii.compare b c <> Gt ->
  Ascii.compare a c <> Gt
  /\ (Ascii.compare a c = Eq ->
      Ascii.compare a b = Eq /\ Ascii.compare b c = Eq).
Proof.
  unfold Ascii.compare. intros H1 H2.
  apply N.compare_le_iff in H1. apply N.compare_le_iff in H2.
  split.
  - apply N.compare_le_iff. eapply N.le_trans; eauto.
  - intros E. apply N.compare_eq_iff in E. rewrite <- E in H2.
    assert (N_of_ascii a = N_of_ascii b) by (apply N.le_antisymm; assumption).
    split; apply N.compare_eq_iff; congruence.
Qed.

Lemma string_compare_trans (s1 s2 s3 : string) :
  String.compare s1 s2 <> Gt -> String.compare s2 s3 <> Gt ->
  String.compare s1 s3 <> Gt.
Proof.
  revert s2 s3. induction s1 as [|a s1 IH]; intros [|b s2] [|c s3];
    simpl; try congruence.
  intros H1 H2.
  assert (Hab : Ascii.compare a b <> Gt)
    by (destruct (Ascii.compare a b); congruence).
  assert (Hbc : Ascii.compare b c <> Gt)
    by (destruct (Ascii.compare b c); congruence).
  destruct (ascii_compare_trans_gt a b c Hab Hbc) as [Hac Heq].
  destruct (Ascii.compare a c) eqn:Eac; try congruence.
  destruct (Heq eq_refl) as [Eab Ebc]. rewrite Eab in H1. rewrite Ebc in H2.
  eauto.
Qed.

Lemma leb_trans (s1 s2 s3 : string) :
  String.leb s1 s2 = true -> String.leb s2 s3 = true ->
  String.leb s1 s3 = true.
Proof.
  unfold String.leb. intros H1 H2.
  assert (H := string_compare_trans s1 s2 s3).
  destruct (String.compare s1 s2), (String.compare s2 s3),
    (String.compare s1 s3); try discriminate; try reflexivity;
    exfalso; apply H; congruence.
Qed.

Lemma leb_false_flip (s1 s2 : string) :
  String.leb s1 s2 = false -> String.leb s2 s1 = true.
Proof. destruct (String.leb_total s1 s2); congruence. Qed.

(** Inserting two strings gives the same list in either order. *)
Lemma insert_sorted_comm (x y : string) (l : list string) :
  insert_sorted x (insert_sorted y l) = insert_sorted y (insert_sorted x l).
Proof.
  induction l as [|z l IH]; simpl.
  - destruct (String.leb x y) eqn:Exy, (String.leb y x) eqn:Eyx; try reflexivity.
    + now rewrite (String.leb_antisym _ _ Exy Eyx).
    + apply leb_false_flip in Exy. congruence.
  - destruct (String.leb y z) eqn:Eyz, (String.leb x z) eqn:Exz; simpl;
      rewrite ?Eyz, ?Exz.
    + destruct (String.leb x y) eqn:Exy, (String.leb y x) eqn:Eyx;
        try reflexivity.
      * now rewrite (String.leb_antisym _ _ Exy Eyx).
      * apply leb_false_flip in Exy. congruence.
    + destruct (String.leb x y) eqn:Exy; [|reflexivity].
      rewrite (leb_trans _ _ _ Exy Eyz) in Exz. discriminate.
    + destruct (String.leb y x) eqn:Eyx; [|reflexivity].
      rewrite (leb_trans _ _ _ Eyx Exz) in Eyz. discriminate.
    + now rewrite IH.
Qed.

(** [sorted] gives one list for all the orders of the same paths. *)
Lemma sorted_permutation (l l' : list string) :
  Permutation l l' -> sorted l = sorted l'.
Proof.
  induction 1; simpl.
  - reflexivity.
  - unfold sorted in *. simpl. now rewrite IHPermutation.
  - unfold sorted. simpl. apply insert_sorted_comm.
  - congruence.
Qed.

Lemma filter_permutation {A : Type} (f : A -> bool) (l l' : list A) :
  Permutation l l' -> Permutation (filter f l) (filter f l').
Proof.
  induction 1; simpl.
  - constructor.
  - destruct (f x); auto.
  - destruct (f x), (f y); auto. apply perm_swap.
  - eapply perm_trans; eauto.
Qed.

(** C6, as the code has it: [_fingerprint] hashes the newline-terminated
    paths in the order it is given them, and the order is fixed before,
    by the [sorted] of [_git_diff_files]. So the fingerprint of the sorted
    list is the same for every permutation of the paths, in the guard and
    in the executor, and two outputs of git that list the same lines in
    different orders give the same fingerprint. *)
Theorem fingerprint_of_sorted_paths (files files' : list string) :
  Permutation files files' ->
  Guard._fingerprint (sorted files) = Guard._fingerprint (sorted files')
  /\ Assurance._fingerprint (sorted files)
     = Assurance._fingerprint (sorted files')
  /\ (forall out out',
        splitlines out = files -> splitlines out' = files' ->
        Guard._fingerprint (Guard._git_diff_files (Some out))
        = Guard._fingerprint (Guard._git_diff_files (Some out'))).
Proof.
  intros Hperm. rewrite (sorted_permutation _ _ Hperm).
  split; [reflexivity|split; [reflexivity|]].
  intros out out' <- <-. unfold Guard._git_diff_files. f_equal.
  apply sorted_permutation, Permutation_map, filter_permutation, Hperm.
Qed.

Lemma fingerprint_of_sorted_paths_witness :
  Guard._fingerprint (sorted ["src/b.go"; "src/a.go"])
  = Guard._fingerprint (sorted ["src/a.go"; "src/b.go"]).
Proof.
  refine (proj1 (fingerprint_of_sorted_paths
                   ["src/b.go"; "src/a.go"] ["src/a.go"; "src/b.go"] _)).
  apply perm_swap.
Defined.

(** C6 as stated fails for the fingerprint function itself: the same two
    paths in the two orders have different fingerprints. *)
Lemma fingerprint_depends_on_the_order :
  Permutation ["src/b.go"; "src/a.go"] ["src/a.go"; "src/b.go"]
  /\ Guard._fingerprint ["src/b.go"; "src/a.go"]
     <> Guard._fingerprint ["src/a.go"; "src/b.go"]
  /\ Assurance._fingerprint ["src/b.go"; "src/a.go"]
     <> Assurance._fingerprint ["src/a.go"; "src/b.go"].
Proof.
  split; [apply perm_swap|].
  split; vm_compute; discriminate.
Qed.

(** *** Matching paths against patterns *)

(** C8, as the code has it: neither matcher raises, whatever the path and
    the patterns. On a pattern the glob engine rejects, the executor's
    matcher compares the path as given with the pattern, and the guard's
    matcher falls back to [fnmatch.fnmatchcase] on the path with its
    backslashes turned into slashes, which on such a pattern is the
    comparison of that normalized path with the pattern. *)
Theorem match_any_total_with_fallback (path : string) :
  (forall patterns, exists b, Guard._match_any path patterns = Ok b)
  /\ (forall patterns, exists b, Assurance._match_any path patterns = Ok b)
  /\ (forall pat, rejected pat ->
        Assurance._match_any path [pat] = Ok (String.eqb path pat)
        /\ Guard._match_any path [pat]
           = Ok (fnmatchcase (Guard._posix path) pat)
        /\ fnmatchcase (Guard._posix path) pat
           = String.eqb (Guard._posix path) pat).
Proof.
  split; [|split].
  - intros patterns. rewrite guard_match_any. eauto.
  - intros patterns. rewrite executor_match_any. eauto.
  - intros pat Hrej.
    rewrite guard_match_any, executor_match_any. simpl.
    unfold guard_hit, executor_hit.
    destruct (Hrej (parse_parts (Guard._posix path))) as [e He].
    unfold Assurance._posix. fold (Guard._posix path). rewrite He.
    rewrite !orb_false_r. repeat split.
    now apply fnmatchcase_rejected.
Qed.

Lemma match_any_total_with_fallback_witness :
  rejected "./"
  /\ Guard._match_any "." ["./"] = Ok (fnmatchcase (Guard._posix ".") "./").
Proof.
  assert (H : rejected "./") by (apply no_parts_rejected; reflexivity).
  split; [exact H|].
  exact (proj1 (proj2 (proj2 (proj2 (match_any_total_with_fallback ".")) "./" H))).
Defined.

(** C8 as stated fails in the guard: the glob engine rejects the pattern
    [./], the path [.\] is not equal to it, and the guard's matcher
    answers that the path matches; the executor's matcher answers that it
    does not. *)
Lemma guard_fallback_is_not_literal :
  path_match (parse_parts (Guard._posix ".\")) "./" = Raise ValueError
  /\ String.eqb ".\" "./" = false
  /\ Guard._match_any ".\" ["./"] = Ok true
  /\ Assurance._match_any ".\" ["./"] = Ok false.
Proof. vm_compute. repeat split; reflexivity. Qed.

(** *** The profile loop of the executor *)

Section Loop.

Variable World : Type.
Variable format : string -> string -> result string.
Variable runner : World -> string -> Z * World.




End Loop.


(** Scenario E: of two profiles the first exits with 2; the second is
    never run and the run ends as a tooling error. *)
Lemma first_profile_tooling_error :
  Assurance.cmd_run nat sample_format sample_runner
    ["typecheck"; "authn-gateway"] sample_template true sample_diff 0%nat
  = Assurance.Returns
      {| Assurance.exit_code := 2;
         Assurance.status := Some "TOOLING_ERROR";
         Assurance.ran := [("typecheck", 2)];
         Assurance.after := 1%nat |}.
Proof. vm_compute. reflexivity. Qed.

(* ================================================================== *)
(** ** Further properties *)
(* ================================================================== *)

(** *** Dicts *)

Lemma lookup_set_item_same (d : dict) (k : string) (v : value) :
  lookup k (PyDict.set_item d k v) = Some v.
Proof.
  induction d as [|[k' v'] d IH]; simpl.
  - now rewrite String.eqb_refl.
  - destruct (String.eqb k k') eqn:E; simpl.
    + now rewrite String.eqb_refl.
    + now rewrite E.
Qed.

Lemma lookup_set_item_other (d : dict) (k k' : string) (v : value) :
  k <> k' -> lookup k (PyDict.set_item d k' v) = lookup k d.
Proof.
  intros Hne. induction d as [|[k0 v0] d IH]; simpl.
  - apply String.eqb_neq in Hne. now rewrite Hne.
  - destruct (String.eqb k' k0) eqn:E; simpl.
    + apply String.eqb_eq in E. subst k0.
      apply String.eqb_neq in Hne. now rewrite Hne.
    + now rewrite IH.
Qed.

Lemma lookup_items_from (seen : list string) (d : dict) (k : string) :
  lookup k (PyDict.items_from seen d)
  = if existsb (String.eqb k) seen then None else lookup k d.
Proof.
  revert seen. induction d as [|[k' v] d IH]; intros seen; simpl.
  - now destruct (existsb _ seen).
  - destruct (existsb (String.eqb k') seen) eqn:Es.
    + rewrite IH. destruct (existsb (String.eqb k) seen) eqn:Ek; [reflexivity|].
      destruct (String.eqb_spec k k') as [->|Hne]; [congruence|reflexivity].
    + simpl. destruct (String.eqb_spec k k') as [->|Hne].
      * now rewrite Es.
      * rewrite IH. simpl. apply String.eqb_neq in Hne. now rewrite Hne.
Qed.

Lemma lookup_items (d : dict) (k : string) :
  lookup k (PyDict.items d) = lookup k d.
Proof. apply lookup_items_from. Qed.

Lemma items_from_keys (seen : list string) (d : dict) :
  NoDup (map fst (PyDict.items_from seen d))
  /\ forall k, In k (map fst (PyDict.items_from seen d)) ->
               existsb (String.eqb k) seen = false.
Proof.
  revert seen. induction d as [|[k' v] d IH]; intros seen; simpl.
  - split; [constructor|contradiction].
  - destruct (existsb (String.eqb k') seen) eqn:Es; [apply IH|].
    destruct (IH (k' :: seen)) as [Hnd Hin]. simpl. split.
    + constructor; [|assumption]. intros H. apply Hin in H. simpl in H.
      now rewrite String.eqb_refl in H.
    + intros k [<-|H]; [assumption|].
      apply Hin in H. simpl in H. now apply orb_false_iff in H.
Qed.

Lemma items_nodup (d : dict) : NoDup (map fst (PyDict.items d)).
Proof. apply items_from_keys. Qed.

Lemma lookup_not_in (d : dict) (k : string) :
  ~ In k (map fst d) -> lookup k d = None.
Proof.
  induction d as [|[k' v] d IH]; simpl; [reflexivity|].
  intros H. destruct (String.eqb_spec k k') as [->|Hne]; [|apply IH]; tauto.
Qed.

(** Setting the entries of a list with distinct keys one after the
    other, each value computed from the key, the new value and the value
    in place. *)
Lemma lookup_fold_set (g : string -> value -> option value -> value)
  (es d : dict) (k : string) :
  NoDup (map fst es) ->
  lookup k
    (fold_left
       (fun out e =>
          PyDict.set_item out (fst e) (g (fst e) (snd e) (lookup (fst e) out)))
       es d)
  = match lookup k es with
    | Some v => Some (g k v (lookup k d))
    | None => lookup k d
    end.
Proof.
  revert d. induction es as [|[k' v] es IH]; intros d Hnd; simpl; [reflexivity|].
  inversion Hnd as [|? ? Hnotin Hnd']; subst. rewrite IH by assumption.
  destruct (String.eqb_spec k k') as [->|Hne].
  - rewrite (lookup_not_in es k') by assumption.
    apply lookup_set_item_same.
  - rewrite (lookup_set_item_other _ _ _ _ Hne). reflexivity.
Qed.

Lemma lookup_update (d other : dict) (k : string) :
  lookup k (PyDict.update d other)
  = match lookup k other with
    | Some v => Some v
    | None => lookup k d
    end.
Proof.
  unfold PyDict.update.
  rewrite (lookup_fold_set (fun _ v _ => v)) by apply items_nodup.
  now rewrite lookup_items.
Qed.

(** *** Merging a local override into the policy *)

Lemma lookup_merge_dict (base override : dict) (k : string) :
  lookup k (GuardConfig._merge_dict base override)
  = match lookup k override, lookup k base with
    | None, old => old
    | Some (VDict o), Some (VDict b) => Some (VDict (PyDict.update b o))
    | Some v, _ => Some v
    end.
Proof.
  unfold GuardConfig._merge_dict.
  rewrite (lookup_fold_set (fun _ v old => GuardConfig.merged v old))
    by apply items_nodup.
  rewrite lookup_items.
  destruct (lookup k override) as [v|]; [|reflexivity].
  unfold GuardConfig.merged.
  destruct v; try reflexivity.
  all: destruct (lookup k base) as [[]|]; reflexivity.
Qed.

(** X1 ([_merge_dict]): at every key the override wins; only where both
    sides hold a dict are the two combined, and then one level deep: the
    keys of the override's dict replace those of the base's dict
    wholesale, lists and nested dicts included, and the other keys of the
    base's dict stay. A key the override does not have keeps the value of
    the base. *)
Theorem merge_dict_lookup (base override : dict) (k : string) :
  lookup k (GuardConfig._merge_dict base override)
  = match lookup k override, lookup k base with
    | None, old => old
    | Some (VDict o), Some (VDict b) => Some (VDict (PyDict.update b o))
    | Some v, _ => Some v
    end
  /\ (forall b o k2,
        lookup k2 (PyDict.update b o)
        = match lookup k2 o with
          | Some v => Some v
          | None => lookup k2 b
          end).
Proof.
  split; [apply lookup_merge_dict|intros; apply lookup_update].
Qed.

Lemma policy_lists_two (p : dict) (s b : string) :
  GuardConfig._policy_lists (VDict p) [s; b]
  = match get p s (VDict []) with
    | VDict d => as_list (get d b (VDict []))
    | _ => []
    end.
Proof.
  simpl. destruct (get p s (VDict [])); reflexivity.
Qed.

(** X2 ([_merge_dict] then [_policy_lists]): an override replaces a
    bucket, it does not add to it. Where the override's section holds the
    bucket, the merged policy has the override's list and nothing of the
    base's; where the override's section is a dict without the bucket, or
    the override has no such section, the base's bucket stays; where the
    override puts something that is not a dict in place of the section,
    every bucket of the section reads as empty. *)
Theorem override_replaces_bucket (base override : dict) (s b : string) :
  GuardConfig._policy_lists
    (VDict (GuardConfig._merge_dict base override)) [s; b]
  = match lookup s override with
    | None => GuardConfig._policy_lists (VDict base) [s; b]
    | Some (VDict o) =>
        match lookup b o, lookup s base with
        | Some v, _ => as_list v
        | None, Some (VDict _) => GuardConfig._policy_lists (VDict base) [s; b]
        | None, _ => []
        end
    | Some _ => []
    end.
Proof.
  rewrite !policy_lists_two. unfold get at 1 3 4.
  rewrite lookup_merge_dict.
  destruct (lookup s override) as [v|]; [|reflexivity].
  destruct v as [| | | | | |o]; try reflexivity.
  destruct (lookup s base) as [[| | | | | |bs]|]; unfold get;
    try (destruct (lookup b o); reflexivity).
  rewrite lookup_update. destruct (lookup b o); reflexivity.
Qed.

(** X3 ([_bash_patterns], [_policy_lists]): the accessor of the command
    buckets returns what the general accessor returns for the section
    [bash]. *)
Theorem bash_patterns_is_policy_lists (policy : dict) (bucket : string) :
  GuardConfig._bash_patterns policy bucket
  = GuardConfig._policy_lists (VDict policy) ["bash"; bucket].
Proof.
  rewrite policy_lists_two. unfold GuardConfig._bash_patterns, get.
  destruct (lookup "bash" policy) as [[| | | | | |b]|]; try reflexivity;
    try (simpl; reflexivity).
  - destruct (lookup bucket b) as [[]|]; reflexivity.
Qed.

(** X4 ([_load_config]): an override file that cannot be read as JSON is
    skipped, as one that does not exist: the policy is the one loaded
    without it, and nothing is raised on its account. *)
Theorem broken_override_is_skipped (profiles_file policy_file : GuardConfig.File)
  (before after : list GuardConfig.File) (e : exn) :
  GuardConfig._load_config profiles_file policy_file
    (before ++ Some (Raise e) :: after)
  = GuardConfig._load_config profiles_file policy_file (before ++ after)
  /\ GuardConfig._load_config profiles_file policy_file
       (before ++ None :: after)
     = GuardConfig._load_config profiles_file policy_file (before ++ after).
Proof.
  unfold GuardConfig._load_config.
  destruct profiles_file as [[profiles|e1]|], policy_file as [[policy|e2]|];
    simpl; try (split; reflexivity).
  rewrite !fold_left_app. simpl. split; reflexivity.
Qed.

(** *** The decisions of the guard *)

Lemma in_bucket_hit (path : string) (bucket : list string) :
  in_bucket path bucket = existsb (guard_hit path) bucket.
Proof. unfold in_bucket. now rewrite guard_match_any. Qed.

(** X5 ([main], file branch): with the engine on, the pack installed and
    the evidence read, the decision on an Edit, Write or Read call is the
    first that applies of: zeroAccess path, deny; path needing a verified
    run while the designated profile has not passed, deny; path needing
    confirmation while no run is on record for the diff, ask; for Edit
    and Write only, confirmWrite path while no run is on record, ask;
    otherwise allow. *)
Theorem file_call_decision_chain (config : Guard.Config)
  (payload : Guard.Payload) (git_output : option string)
  (state : option dict) (now : Z) (ev : Guard.Evidence) :
  Guard.is_file_tool (Guard.tool_name payload) = true ->
  Guard.evidence_state state
    (Guard._fingerprint (Guard._git_diff_files git_output)) now
    (Guard.evidence_max_age_seconds (Guard.policy config)) = Ok ev ->
  verdict (Guard.main (Some "1") (Some config) payload git_output state now [])
  = Some (spec_file_decision (Guard.policy config) (Guard.tool_name payload)
            (Guard.file_path_of (Guard.tool_input payload)) ev).
Proof.
  intros Htool Hev.
  rewrite (main_file_verdict _ _ _ _ _ _ Htool Hev), handle_file_verdict.
  cbv zeta. unfold spec_file_decision. now rewrite !in_bucket_hit.
Qed.

Lemma file_call_decision_chain_witness :
  verdict (Guard.main (Some "1") (Some keys_only_config)
             (edit "src/auth/jwt.go") sample_diff None 0 [])
  = Some Guard.Ask
  /\ verdict (Guard.main (Some "1") (Some keys_only_config)
                (call "Read" (Guard.InputDict [("file_path", "src/auth/jwt.go")]))
                sample_diff None 0 [])
     = Some Guard.Allow.
Proof.
  split.
  - exact (file_call_decision_chain keys_only_config (edit "src/auth/jwt.go")
             sample_diff None 0 _ eq_refl eq_refl).
  - exact (file_call_decision_chain keys_only_config
             (call "Read" (Guard.InputDict [("file_path", "src/auth/jwt.go")]))
             sample_diff None 0 _ eq_refl eq_refl).
Defined.

Lemma spec_file_decision_monotone (policy : Guard.Policy) (tool path : string)
  (ev ev' : Guard.Evidence) :
  (Guard.authn_gateway_pass ev = true -> Guard.authn_gateway_pass ev' = true) ->
  (Guard.ran_fresh_for_diff ev = true -> Guard.ran_fresh_for_diff ev' = true) ->
  strictness (spec_file_decision policy tool path ev')
  <= strictness (spec_file_decision policy tool path ev).
Proof.
  intros Ha Hr. unfold spec_file_decision.
  destruct (in_bucket path (Guard.paths_zeroAccess policy)); [simpl; lia|].
  destruct (in_bucket path (Guard.evidence_require_success_for_paths policy)),
    (in_bucket path
       (Guard.evidence_require_confirm_without_evidence_for_paths policy)),
    (Guard.is_write_tool tool),
    (in_bucket path (Guard.paths_confirmWrite policy)),
    (Guard.authn_gateway_pass ev), (Guard.ran_fresh_for_diff ev);
    try rewrite (Ha eq_refl); try rewrite (Hr eq_refl);
    destruct (Guard.authn_gateway_pass ev'), (Guard.ran_fresh_for_diff ev');
    simpl; lia.
Qed.

(** X6 ([main], file branch): evidence only ever relaxes a decision. Of
    two runs on the same call and policy, the one whose evidence has the
    designated profile passed and a run on record whenever the other's
    has, never decides more strictly (allow below ask below deny). *)
Theorem more_evidence_never_stricter (config : Guard.Config)
  (payload : Guard.Payload) (git_output git_output' : option string)
  (state state' : option dict) (now now' : Z) (ev ev' : Guard.Evidence) :
  Guard.is_file_tool (Guard.tool_name payload) = true ->
  Guard.evidence_state state
    (Guard._fingerprint (Guard._git_diff_files git_output)) now
    (Guard.evidence_max_age_seconds (Guard.policy config)) = Ok ev ->
  Guard.evidence_state state'
    (Guard._fingerprint (Guard._git_diff_files git_output')) now'
    (Guard.evidence_max_age_seconds (Guard.policy config)) = Ok ev' ->
  (Guard.authn_gateway_pass ev = true -> Guard.authn_gateway_pass ev' = true) ->
  (Guard.ran_fresh_for_diff ev = true -> Guard.ran_fresh_for_diff ev' = true) ->
  exists d d',
    verdict (Guard.main (Some "1") (Some config) payload git_output state now [])
    = Some d
    /\ verdict (Guard.main (Some "1") (Some config) payload git_output' state'
                  now' []) = Some d'
    /\ strictness d' <= strictness d.
Proof.
  intros Htool Hev Hev' Ha Hr.
  do 2 eexists. split; [|split].
  - rewrite (main_file_verdict _ _ _ _ _ _ Htool Hev), handle_file_verdict.
    cbv zeta. rewrite <- !in_bucket_hit. reflexivity.
  - rewrite (main_file_verdict _ _ _ _ _ _ Htool Hev'), handle_file_verdict.
    cbv zeta. rewrite <- !in_bucket_hit. reflexivity.
  - now apply (spec_file_decision_monotone (Guard.policy config)
                 (Guard.tool_name payload)
                 (Guard.file_path_of (Guard.tool_input payload))).
Qed.

Lemma more_evidence_never_stricter_witness :
  exists d d',
    verdict (Guard.main (Some "1") (Some sample_config) (edit "src/login.go")
               sample_diff None 4600 []) = Some d
    /\ verdict (Guard.main (Some "1") (Some sample_config) (edit "src/login.go")
                  sample_diff (Some (passing_record (VInt 1000))) 4600 [])
       = Some d'
    /\ strictness d' <= strictness d.
Proof.
  refine (more_evidence_never_stricter sample_config (edit "src/login.go")
            sample_diff sample_diff None (Some (passing_record (VInt 1000)))
            4600 4600 _ sample_evidence eq_refl eq_refl eq_refl _ _);
    reflexivity.
Defined.

Lemma engine_on_or_off (enabled : option string) (config : option Guard.Config) :
  (exists config', enabled = Some "1" /\ config = Some config')
  \/ (enabled <> Some "1" \/ config = None).
Proof.
  destruct config as [config'|]; [|right; now right].
  destruct enabled as [s|]; [|right; left; discriminate].
  destruct (string_dec s "1") as [->|Hne]; [left; eauto|].
  right; left. congruence.
Qed.

Lemma main_off (enabled : option string) (config : option Guard.Config)
  (payload : Guard.Payload) (git_output : option string)
  (state : option dict) (now : Z) (log : list Guard.Event) :
  enabled <> Some "1" \/ config = None ->
  Guard.main enabled config payload git_output state now log
  = (log, inr (Guard.SystemExit
                 {| Guard.permissionDecision := Guard.Allow;
                    Guard.permissionDecisionReason := None |})).
Proof.
  intros [Hoff| ->]; [now apply main_disabled|].
  destruct (string_dec (Guard.or_default enabled "0") "1") as [E|E].
  - destruct enabled as [s|]; simpl in E; [subst s|discriminate].
    apply main_not_installed.
  - apply main_disabled. intros ->. now apply E.
Qed.

(** X7 ([main]): a call of a tool other than Bash, Edit, Write and Read is
    never denied and never asked about, whatever the policy, the evidence
    and the input of the tool, and no audit event is written for it. *)
Theorem other_tools_never_blocked (enabled : option string)
  (config : option Guard.Config) (payload : Guard.Payload)
  (git_output : option string) (state : option dict) (now : Z) :
  governed (Guard.tool_name payload) = false ->
  let r := Guard.main enabled config payload git_output state now [] in
  verdict r <> Some Guard.Deny
  /\ verdict r <> Some Guard.Ask
  /\ trail r = [].
Proof.
  unfold governed. intros Htool. apply orb_false_iff in Htool as [Hb Hf].
  cbv zeta.
  destruct (engine_on_or_off enabled config) as [Hon|Hoff].
  - destruct Hon as (config' & -> & ->).
    rewrite main_enabled. cbv zeta. rewrite Hb, Hf.
    destruct (Guard.evidence_state _ _ _ _); simpl; repeat split; discriminate.
  - rewrite main_off by assumption. simpl. repeat split; discriminate.
Qed.

Lemma other_tools_never_blocked_witness :
  verdict (Guard.main (Some "1") (Some sample_config) glob_call sample_diff
             (Some (passing_record (VInt 1000))) 4600 [])
  <> Some Guard.Deny.
Proof.
  exact (proj1 (other_tools_never_blocked (Some "1") (Some sample_config)
                  glob_call sample_diff (Some (passing_record (VInt 1000)))
                  4600 eq_refl)).
Defined.

Lemma handle_bash_event (policy : Guard.Policy) (payload : Guard.Payload)
  (now : Z) (log : list Guard.Event) :
  exists e h,
    Guard.handle_bash policy payload now log = (log ++ [e], inr h)
    /\ Guard.ev_ts e = now
    /\ Guard.ev_tool e = "Bash"
    /\ Guard.ev_session_id e = Guard.session_id payload
    /\ forall now', Guard.handle_bash policy payload now' log
                    = (log ++ [restamp now' e], inr h).
Proof.
  unfold Guard.handle_bash. run_hook.
  destruct (Guard.truthy (Guard._match_bash _ (Guard._bash_patterns policy "blocked")));
    [do 2 eexists; repeat split; reflexivity|].
  destruct (Guard.truthy (Guard._match_bash _ (Guard._bash_patterns policy "confirm")));
    do 2 eexists; repeat split; reflexivity.
Qed.

Lemma handle_file_event (config : Guard.Config) (payload : Guard.Payload)
  (now : Z) (fp : string) (ev : Guard.Evidence) (log : list Guard.Event) :
  exists e h,
    Guard.handle_file config payload now fp ev log = (log ++ [e], inr h)
    /\ Guard.ev_ts e = now
    /\ Guard.ev_tool e = Guard.tool_name payload
    /\ Guard.ev_session_id e = Guard.session_id payload.
Proof.
  unfold Guard.handle_file. run_hook.
  destruct (existsb _ (Guard._policy_lists _ "paths" "zeroAccess"));
    [do 2 eexists; repeat split; reflexivity|].
  destruct (existsb _ (Guard._policy_lists _ "evidence" "require_success_for_paths")
            && negb (Guard.authn_gateway_pass ev));
    [do 2 eexists; repeat split; reflexivity|].
  destruct (existsb _ (Guard._policy_lists _ "evidence"
                         "require_confirm_without_evidence_for_paths")
            && negb (Guard.ran_fresh_for_diff ev));
    [do 2 eexists; repeat split; reflexivity|].
  destruct (Guard.is_write_tool (Guard.tool_name payload)).
  - cbn [Guard.lift Guard.ret].
    destruct (existsb _ (Guard._policy_lists _ "paths" "confirmWrite")
              && negb (Guard.ran_fresh_for_diff ev));
      do 2 eexists; repeat split; reflexivity.
  - cbn. do 2 eexists; repeat split; reflexivity.
Qed.

(** X8 ([main]): in a run the hook hands at most one event to
    [_log_security_event], and that event carries the reading of the
    clock, the session and the name of the tool of the call. *)
Theorem one_event_per_run_at_most (enabled : option string)
  (config : option Guard.Config) (payload : Guard.Payload)
  (git_output : option string) (state : option dict) (now : Z) :
  let events :=
    trail (Guard.main enabled config payload git_output state now []) in
  (List.length events <= 1)%nat
  /\ forall e, In e events ->
       Guard.ev_ts e = now
       /\ Guard.ev_tool e = Guard.tool_name payload
       /\ Guard.ev_session_id e = Guard.session_id payload.
Proof.
  cbv zeta.
  destruct (engine_on_or_off enabled config) as [(config' & -> & ->)|Hoff].
  - rewrite main_enabled. cbv zeta.
    destruct (Guard.evidence_state _ _ _ _) as [ev|e].
    + destruct (String.eqb (Guard.tool_name payload) "Bash") eqn:Eb.
      * destruct (handle_bash_event (Guard.policy config') payload now [])
          as (e & h & -> & Hts & Ht & Hs & _).
        simpl. split; [lia|]. intros e' [<-|[]]. repeat split; auto.
        rewrite Ht. symmetry. now apply String.eqb_eq.
      * destruct (Guard.is_file_tool (Guard.tool_name payload)).
        -- destruct (handle_file_event config' payload now
                       (Guard._fingerprint (Guard._git_diff_files git_output))
                       ev []) as (e & h & -> & Hts & Ht & Hs).
           simpl. split; [lia|]. intros e' [<-|[]]. auto.
        -- simpl. split; [lia|contradiction].
    + simpl. split; [lia|contradiction].
  - rewrite main_off by assumption. simpl. split; [lia|contradiction].
Qed.

(** X9 ([main], Bash branch): the decision on a command does not depend
    on the evidence record, the diff or the clock. Two runs on the same
    call and policy, each with evidence that can be read, end alike,
    whatever the record, the output of git and the time of each; each
    emits one event, and the two events differ in their time stamp
    only. *)
Theorem command_decision_ignores_evidence (config : Guard.Config)
  (payload : Guard.Payload) (git_output git_output' : option string)
  (state state' : option dict) (now now' : Z) (ev ev' : Guard.Evidence) :
  Guard.tool_name payload = "Bash" ->
  Guard.evidence_state state
    (Guard._fingerprint (Guard._git_diff_files git_output)) now
    (Guard.evidence_max_age_seconds (Guard.policy config)) = Ok ev ->
  Guard.evidence_state state'
    (Guard._fingerprint (Guard._git_diff_files git_output')) now'
    (Guard.evidence_max_age_seconds (Guard.policy config)) = Ok ev' ->
  let r :=
    Guard.main (Some "1") (Some config) payload git_output state now [] in
  let r' :=
    Guard.main (Some "1") (Some config) payload git_output' state' now' [] in
  snd r = snd r'
  /\ exists e, trail r = [e] /\ trail r' = [restamp now' e]
               /\ Guard.ev_ts e = now.
Proof.
  intros Htool Hev Hev'. cbv zeta. rewrite !main_enabled. cbv zeta.
  rewrite Hev, Hev', Htool. simpl String.eqb. cbv iota.
  destruct (handle_bash_event (Guard.policy config) payload now [])
    as (e & h & E & Hts & _ & _ & Hany).
  rewrite E, (Hany now'). simpl. split; [reflexivity|]. now exists e.
Qed.

Lemma command_decision_ignores_evidence_witness :
  snd (Guard.main (Some "1") (Some sample_config)
         (bash "git push origin main") sample_diff None 0 [])
  = snd (Guard.main (Some "1") (Some sample_config)
           (bash "git push origin main") None
           (Some (passing_record (VInt 1000))) 4600 []).
Proof.
  exact (proj1 (command_decision_ignores_evidence sample_config
                  (bash "git push origin main") sample_diff None None
                  (Some (passing_record (VInt 1000))) 0 4600 _ _ eq_refl
                  eq_refl eq_refl)).
Defined.

(** *** Command rules *)

(** X10 ([_match_bash]): within a bucket the order of the rules decides.
    The reason returned is that of the first rule whose pattern is not
    empty and matches the command (the text "matched security policy"
    when the rule has none); rules without a pattern, or with an empty
    one, are passed over; and the result is [None] exactly when no rule
    applies. *)
Theorem first_rule_decides (cmd : string) (rules : list Guard.Rule) :
  (Guard._match_bash cmd rules = None
   <-> forallb (fun r => negb (rule_matches cmd r)) rules = true)
  /\ (forall before r after,
        rules = before ++ r :: after ->
        forallb (fun r => negb (rule_matches cmd r)) before = true ->
        rule_matches cmd r = true ->
        Guard._match_bash cmd rules = Some (reason_of r))
  /\ (forall r,
        Guard.pattern r = None \/ Guard.pattern r = Some "" ->
        rule_matches cmd r = false).
Proof.
  split; [|split].
  - rewrite match_bash_find.
    induction rules as [|r rules IH]; simpl; [tauto|].
    destruct (rule_matches cmd r); simpl; [split; discriminate|exact IH].
  - intros before r after -> Hbefore Hr. rewrite match_bash_find.
    induction before as [|b before IH]; simpl in *.
    + now rewrite Hr.
    + apply andb_true_iff in Hbefore as [Hb Hbefore].
      apply negb_true_iff in Hb. rewrite Hb. auto.
  - intros r [H|H]; unfold rule_matches; rewrite H; reflexivity.
Qed.

Lemma first_rule_decides_witness :
  Guard._match_bash "git push --force" (Guard.bash_blocked sample_policy)
  = Some "rewrites history".
Proof.
  exact (proj1 (proj2 (first_rule_decides "git push --force"
                         (Guard.bash_blocked sample_policy)))
           [ {| Guard.pattern := Some "rm -rf *";
                Guard.reason := Some "destructive delete" |} ]
           {| Guard.pattern := Some "git push --force";
              Guard.reason := Some "rewrites history" |}
           [] eq_refl eq_refl eq_refl).
Defined.

(** *** Slashes *)

Lemma eqb_backslash (c : ascii) : Ascii.eqb c "\"%char = is_backslash c.
Proof.
  unfold is_backslash, is_char, ord.
  destruct (Ascii.eqb c "\"%char) eqn:E.
  - apply Ascii.eqb_eq in E. now subst.
  - symmetry. apply Z.eqb_neq. intros H.
    apply Ascii.eqb_neq in E. apply E.
    rewrite <- (ascii_nat_embedding c).
    change 92 with (Z.of_nat 92) in H.
    apply Nat2Z.inj in H. now rewrite H.
Qed.

Lemma posix_idem (path : string) :
  Guard._posix (Guard._posix path) = Guard._posix path.
Proof.
  unfold Guard._posix, replace. rewrite chars_str. f_equal.
  rewrite map_map. apply map_ext. intros c.
  destruct (Ascii.eqb c "\"%char) eqn:E; [reflexivity|now rewrite E].
Qed.

(** X11 ([_posix]): turning backslashes into slashes leaves no backslash,
    keeps the length, changes nothing when done a second time, and
    leaves exactly the paths without a backslash as they are. *)
Theorem posix_normal_form (path : string) :
  forallb (fun c => negb (is_backslash c)) (chars (Guard._posix path)) = true
  /\ String.length (Guard._posix path) = String.length path
  /\ Guard._posix (Guard._posix path) = Guard._posix path
  /\ (Guard._posix path = path
      <-> forallb (fun c => negb (is_backslash c)) (chars path) = true)
  /\ Assurance._posix path = Guard._posix path.
Proof.
  split; [|split; [|split; [apply posix_idem|split; [|reflexivity]]]].
  - unfold Guard._posix, replace. rewrite chars_str.
    induction (chars path) as [|c l IH]; simpl; [reflexivity|].
    rewrite IH, andb_true_r, <- eqb_backslash.
    destruct (Ascii.eqb c "\"%char) eqn:E; [reflexivity|now rewrite E].
  - unfold Guard._posix, replace.
    now rewrite <- !chars_length, chars_str, length_map.
  - unfold Guard._posix, replace. split.
    + intros H. apply (f_equal chars) in H. rewrite chars_str in H.
      induction (chars path) as [|c l IH]; simpl in *; [reflexivity|].
      injection H as Hc Hl. rewrite (IH Hl), andb_true_r, <- eqb_backslash.
      destruct (Ascii.eqb c "\"%char) eqn:E; [|reflexivity].
      apply Ascii.eqb_eq in E. subst c. discriminate.
    + intros H. rewrite <- (str_chars path) at 2. f_equal.
      induction (chars path) as [|c l IH]; simpl in *; [reflexivity|].
      apply andb_true_iff in H as [Hc Hl]. rewrite (IH Hl).
      rewrite <- eqb_backslash in Hc. apply negb_true_iff in Hc.
      now rewrite Hc.
Qed.

(** *** The two matchers, again *)

Lemma guard_hit_is_executor_hit (path pat : string) :
  guard_hit path pat = executor_hit (Guard._posix path) pat.
Proof.
  unfold guard_hit, executor_hit.
  change (Assurance._posix (Guard._posix path))
    with (Guard._posix (Guard._posix path)).
  rewrite posix_idem.
  destruct (path_match _ pat) as [b|e] eqn:E; [reflexivity|].
  apply fnmatchcase_rejected, no_parts_rejected.
  eapply raises_no_parts; eauto.
Qed.

(** X12 ([_match_any] of the guard and of the executor): on every path
    and every list of patterns the guard's matcher answers what the
    executor's matcher answers on the path with its backslashes turned
    into slashes; on a path without backslashes the two agree. *)
Theorem guard_matcher_is_executor_matcher_on_posix (path : string)
  (patterns : list string) :
  Guard._match_any path patterns
  = Assurance._match_any (Guard._posix path) patterns
  /\ (Guard._posix path = path ->
      Guard._match_any path patterns = Assurance._match_any path patterns).
Proof.
  assert (H : Guard._match_any path patterns
              = Assurance._match_any (Guard._posix path) patterns).
  { rewrite guard_match_any, executor_match_any. f_equal.
    induction patterns as [|pat l IH]; simpl; [reflexivity|].
    now rewrite IH, guard_hit_is_executor_hit. }
  split; [exact H|]. intros E. now rewrite H, E.
Qed.

Lemma guard_matcher_is_executor_matcher_on_posix_witness :
  Guard._match_any "src/auth/jwt.go" ["auth/*"; "./"]
  = Assurance._match_any "src/auth/jwt.go" ["auth/*"; "./"].
Proof.
  exact (proj2 (guard_matcher_is_executor_matcher_on_posix
                  "src/auth/jwt.go" ["auth/*"; "./"]) eq_refl).
Defined.

Lemma existsb_permutation {A : Type} (f : A -> bool) (l l' : list A) :
  Permutation l l' -> existsb f l = existsb f l'.
Proof.
  induction 1; simpl.
  - reflexivity.
  - now rewrite IHPermutation.
  - destruct (f x), (f y); reflexivity.
  - congruence.
Qed.

(** X13 ([_match_any], both files): a path is in a bucket when one of
    the patterns hits it. The answer for two lists put together is the
    disjunction of the answers, so the order of the patterns and their
    repetition do not count. *)
Theorem bucket_is_a_disjunction (path : string) (pats pats' : list string) :
  Guard._match_any path (pats ++ pats')
  = Ok (existsb (guard_hit path) pats || existsb (guard_hit path) pats')
  /\ Assurance._match_any path (pats ++ pats')
     = Ok (existsb (executor_hit path) pats
           || existsb (executor_hit path) pats')
  /\ (Permutation pats pats' ->
      Guard._match_any path pats = Guard._match_any path pats'
      /\ Assurance._match_any path pats = Assurance._match_any path pats')
  /\ Guard._match_any path (pats ++ pats) = Guard._match_any path pats
  /\ Assurance._match_any path (pats ++ pats)
     = Assurance._match_any path pats.
Proof.
  rewrite !guard_match_any, !executor_match_any, !existsb_app.
  repeat split.
  - f_equal. now apply existsb_permutation.
  - f_equal. now apply existsb_permutation.
  - now rewrite orb_diag.
  - now rewrite orb_diag.
Qed.

Lemma bucket_is_a_disjunction_witness :
  Guard._match_any "deploy/tls.pem" ["auth/**"; "*.pem"]
  = Guard._match_any "deploy/tls.pem" ["*.pem"; "auth/**"].
Proof.
  exact (proj1
           (proj1 (proj2 (proj2
              (bucket_is_a_disjunction "deploy/tls.pem"
                 ["auth/**"; "*.pem"] ["*.pem"; "auth/**"])))
              (perm_swap "*.pem" "auth/**" []))).
Defined.

(** *** The list of changed files *)

Lemma lskip_idem (blank : ascii -> bool) (l : list ascii) :
  lskip blank (lskip blank l) = lskip blank l.
Proof.
  induction l as [|c l IH]; simpl; [reflexivity|].
  destruct (blank c) eqn:E; [exact IH|]. simpl. now rewrite E.
Qed.

Lemma lskip_suffix (blank : ascii -> bool) (l : list ascii) :
  exists pre, l = pre ++ lskip blank l.
Proof.
  induction l as [|c l [pre IH]]; simpl.
  - now exists [].
  - destruct (blank c).
    + exists (c :: pre). simpl. now rewrite <- IH.
    + now exists [].
Qed.

(** A list that does not start with a blank is left as it is. *)
Lemma lskip_fixed (blank : ascii -> bool) (l : list ascii) :
  match l with c :: _ => blank c = false | [] => True end ->
  lskip blank l = l.
Proof. destruct l as [|c l]; simpl; [reflexivity|]. now intros ->. Qed.

Lemma lskip_head (blank : ascii -> bool) (l : list ascii) :
  match lskip blank l with c :: _ => blank c = false | [] => True end.
Proof.
  induction l as [|c l IH]; simpl; [exact I|].
  destruct (blank c) eqn:E; [exact IH|exact E].
Qed.

Lemma trim_idem (blank : ascii -> bool) (l : list ascii) :
  trim blank (trim blank l) = trim blank l.
Proof.
  unfold trim.
  set (m := lskip blank l).
  set (m' := lskip blank (rev m)).
  assert (Hm : match m with c :: _ => blank c = false | [] => True end)
    by apply lskip_head.
  assert (Hfix : lskip blank (rev m') = rev m').
  { apply lskip_fixed.
    destruct (lskip_suffix blank (rev m)) as [pre Hpre]. fold m' in Hpre.
    apply (f_equal (@rev ascii)) in Hpre.
    rewrite rev_involutive, rev_app_distr in Hpre.
    destruct (rev m') as [|c r]; [exact I|].
    rewrite Hpre in Hm. exact Hm. }
  rewrite Hfix, rev_involutive. unfold m'. now rewrite lskip_idem.
Qed.

Lemma strip_idem (s : string) : strip (strip s) = strip s.
Proof. unfold strip. now rewrite chars_str, trim_idem. Qed.

Lemma insert_sorted_in (x y : string) (l : list string) :
  In x (insert_sorted y l) <-> x = y \/ In x l.
Proof.
  induction l as [|z l IH]; simpl.
  - intuition congruence.
  - destruct (String.leb y z); simpl; [intuition congruence|].
    rewrite IH. intuition congruence.
Qed.

Lemma sorted_in (x : string) (l : list string) :
  In x (sorted l) <-> In x l.
Proof.
  unfold sorted. induction l as [|y l IH]; simpl; [tauto|].
  rewrite insert_sorted_in, IH. intuition congruence.
Qed.

Lemma ascending_cons (y : string) (m : list string) :
  match m with h :: _ => String.leb y h = true | [] => True end ->
  ascending m = true -> ascending (y :: m) = true.
Proof. destruct m as [|h m]; simpl; [reflexivity|]. now intros -> ->. Qed.

Lemma ascending_tail (y : string) (m : list string) :
  ascending (y :: m) = true ->
  match m with h :: _ => String.leb y h = true | [] => True end
  /\ ascending m = true.
Proof.
  destruct m as [|h m]; simpl; [auto|].
  intros H. now apply andb_true_iff in H.
Qed.

Lemma insert_sorted_ascending (x : string) (l : list string) :
  ascending l = true -> ascending (insert_sorted x l) = true.
Proof.
  induction l as [|y l IH]; [reflexivity|].
  intros Hl. cbn [insert_sorted]. destruct (String.leb x y) eqn:Exy.
  - now apply ascending_cons.
  - apply leb_false_flip in Exy.
    apply ascending_tail in Hl as [Hhd Hl].
    apply ascending_cons; [|now apply IH].
    destruct l as [|z l]; cbn [insert_sorted]; [exact Exy|].
    now destruct (String.leb x z).
Qed.

Lemma sorted_ascending (l : list string) : ascending (sorted l) = true.
Proof.
  unfold sorted. induction l as [|x l IH]; simpl; [reflexivity|].
  now apply insert_sorted_ascending.
Qed.

(** X14 ([_git_diff_files]): the list of changed files is in ascending
    order; no entry is empty and none has a blank at either end; a path
    is listed exactly when it is what is left of a line of the output of
    git that is not blank; and when git fails the list is empty, as it
    is when git prints nothing. *)
Theorem changed_files_are_tidy (git_output : option string) :
  ascending (Guard._git_diff_files git_output) = true
  /\ (forall f, In f (Guard._git_diff_files git_output) ->
        f <> "" /\ strip f = f)
  /\ (forall out f, git_output = Some out ->
        (In f (Guard._git_diff_files git_output)
         <-> exists line, In line (splitlines out)
                          /\ strip line = f /\ f <> ""))
  /\ Guard._git_diff_files None = []
  /\ Guard._git_diff_files (Some "") = [].
Proof.
  split; [|split; [|split; [|split; reflexivity]]].
  - destruct git_output as [out|]; simpl; [apply sorted_ascending|reflexivity].
  - destruct git_output as [out|]; simpl; [|contradiction].
    intros f Hf. apply sorted_in, in_map_iff in Hf as (line & <- & Hline).
    apply filter_In in Hline as [_ Hne]. apply negb_true_iff in Hne.
    split; [|apply strip_idem].
    intros E. rewrite E in Hne. discriminate.
  - intros out f ->. simpl. rewrite sorted_in, in_map_iff. split.
    + intros (line & <- & Hline). apply filter_In in Hline as [Hin Hne].
      exists line. repeat split; auto.
      apply negb_true_iff in Hne. intros E. rewrite E in Hne. discriminate.
    + intros (line & Hin & <- & Hne). exists line. split; [reflexivity|].
      apply filter_In. split; [exact Hin|].
      apply negb_true_iff. now apply String.eqb_neq.
Qed.

Lemma changed_files_are_tidy_witness :
  In "src/a.go" (Guard._git_diff_files untidy_diff)
  /\ Guard._git_diff_files untidy_diff = ["src/a.go"; "src/b.go"].
Proof.
  split; [|reflexivity].
  apply (proj1 (proj2 (proj2 (changed_files_are_tidy untidy_diff)))
           _ "src/a.go" eq_refl).
  exists "src/a.go". repeat split.
  - vm_compute. auto.
  - discriminate.
Defined.

(** *** The fingerprint is a SHA-256 digest in hexadecimal *)

Lemma round_length (st : list Z) (kw : Z * Z) :
  List.length (round st kw) = List.length st.
Proof.
  unfold round.
  destruct st as [|a [|b [|c [|d [|e [|f [|g [|h [|i st]]]]]]]]]; reflexivity.
Qed.

Lemma rounds_length (kws : list (Z * Z)) (st : list Z) :
  List.length (fold_left round kws st) = List.length st.
Proof.
  revert st. induction kws as [|kw kws IH]; intros st; simpl; [reflexivity|].
  now rewrite IH, round_length.
Qed.

Lemma compress_length (h block : list Z) :
  List.length (compress h block) = List.length h.
Proof.
  unfold compress. rewrite length_map, length_combine, rounds_length.
  apply Nat.min_id.
Qed.

Lemma sha256_words_length (msg : list Z) :
  List.length (sha256_words msg) = 8%nat.
Proof.
  unfold sha256_words.
  generalize (blocks (List.length (pad msg)) (pad msg)). intros bs.
  change 8%nat with (List.length initial_hash).
  generalize initial_hash. induction bs as [|b bs IH]; intros h; simpl.
  - reflexivity.
  - now rewrite IH, compress_length.
Qed.

Lemma hex_digit_is_hex (x : Z) :
  is_hex_char (hex_digit (Z.land x 15)) = true.
Proof.
  change 15 with (Z.ones 4). rewrite Z.land_ones by lia.
  assert (H : 0 <= x mod 2 ^ 4 < 16) by (apply Z.mod_pos_bound; lia).
  generalize dependent (x mod 2 ^ 4). intros n H.
  assert (Hall : forallb (fun i => is_hex_char (hex_digit (Z.of_nat i)))
                   (seq 0 16) = true) by reflexivity.
  rewrite forallb_forall in Hall.
  rewrite <- (Z2Nat.id n) by lia. apply Hall, in_seq. lia.
Qed.

Lemma hex_of_words (ws : list Z) :
  List.length (flat_map hex_of_word ws) = (8 * List.length ws)%nat
  /\ forallb is_hex_char (flat_map hex_of_word ws) = true.
Proof.
  induction ws as [|w ws [IHl IHh]]; [split; reflexivity|].
  cbn [flat_map]. rewrite length_app, forallb_app, IHl, IHh. split.
  - unfold hex_of_word. rewrite length_map. simpl. lia.
  - rewrite andb_true_r. unfold hex_of_word.
    rewrite forallb_forall. intros c Hc.
    apply in_map_iff in Hc as (i & <- & _). apply hex_digit_is_hex.
Qed.

(** X15 ([_fingerprint]): whatever the list of files, the fingerprint is
    a text of 64 characters, each a digit or one of the letters a to f;
    the guard and the executor compute the same one. *)
Theorem fingerprint_is_64_hex (files : list string) :
  String.length (Guard._fingerprint files) = 64%nat
  /\ forallb is_hex_char (chars (Guard._fingerprint files)) = true
  /\ Assurance._fingerprint files = Guard._fingerprint files.
Proof.
  unfold Guard._fingerprint, hexdigest.
  rewrite <- chars_length, chars_str.
  destruct (hex_of_words
              (sha256_words
                 (fold_left (fun h f => update (update h (encode_utf8 f)) [10])
                    files sha256_new))) as [Hl Hh].
  rewrite Hl, Hh, sha256_words_length. repeat split.
Qed.

(** *** Selecting the profiles *)

Lemma match_any_in_strings (file_path : string) (pats : list value) :
  Executor._match_any_in (parse_parts (Assurance._posix file_path))
    file_path pats
  = Ok (existsb (executor_hit file_path) (strings_of pats)).
Proof.
  induction pats as [|pat pats IH]; [reflexivity|].
  cbn [Executor._match_any_in].
  destruct pat; cbn [Executor.match_value Executor.equals try_except bind
                     strings_of flat_map app]; try exact IH.
  fold (strings_of pats). cbn [existsb]. unfold executor_hit at 1.
  destruct (path_match _ s) as [b|e]; cbn [try_except bind].
  - destruct b; [reflexivity|exact IH].
  - destruct (String.eqb file_path s); [reflexivity|exact IH].
Qed.

Lemma iterate_patterns (v : value) (pats : list value) :
  Executor.iterate v = Ok pats -> strings_of pats = patterns_of v.
Proof.
  destruct v; simpl; try discriminate; intros [= <-].
  - unfold strings_of. induction (chars s) as [|c l IH]; simpl; congruence.
  - reflexivity.
  - unfold strings_of. induction (PyDict.items d) as [|e l IH]; simpl;
      congruence.
Qed.

Lemma match_any_value (file_path : string) (v : value) :
  Executor._match_any file_path v
  = if iterable v
    then Ok (existsb (executor_hit file_path) (patterns_of v))
    else Raise TypeError.
Proof.
  unfold Executor._match_any.
  destruct (Executor.iterate v) as [pats|e] eqn:E.
  - cbn [bind]. rewrite match_any_in_strings, (iterate_patterns _ _ E).
    destruct v; try discriminate; reflexivity.
  - destruct v; try discriminate; simpl in E; injection E as <-; reflexivity.
Qed.

Lemma any_match_value (files : list string) (v : value) :
  Executor.any_match files v
  = if is_nil files || iterable v
    then Ok (existsb (fun f => existsb (executor_hit f) (patterns_of v)) files)
    else Raise TypeError.
Proof.
  induction files as [|f files IH]; [reflexivity|].
  cbn [Executor.any_match is_nil orb]. rewrite match_any_value.
  destruct (iterable v) eqn:Ev; [|reflexivity].
  cbn [bind existsb]. rewrite IH. rewrite ?Ev, ?orb_true_r.
  now destruct (existsb (executor_hit f) (patterns_of v)).
Qed.

(** The loop in closed form: it stops with [TypeError] when there is a
    file to match and an entry whose patterns cannot be iterated;
    otherwise it yields the names of the triggered entries, in the order
    of the table. *)
Lemma selected_filter (profs : dict) (files : list string) :
  Executor.selected profs files
  = if negb (is_nil files) && existsb (fun e => breaks (fst e) (snd e)) profs
    then Raise TypeError
    else Ok (map fst (filter (fun e => triggered files (fst e) (snd e)) profs)).
Proof.
  induction profs as [|[name p] profs IH]; simpl.
  - now rewrite andb_false_r.
  - unfold breaks at 1, triggered at 1, live_triggers. simpl.
    destruct (String.eqb name "all"); [exact IH|].
    destruct p as [| | | | | |d]; try (rewrite IH; cbn [bind];
      destruct (negb (is_nil files) && _); reflexivity).
    destruct (Executor.is_False (lookup "auto_select" d)); [exact IH|].
    destruct (PyDict.truth (get d "triggers" (VList []))) eqn:Et.
    + rewrite any_match_value, IH. clear IH Et.
      destruct (get d "triggers" (VList [])) as [|?|?|?|?|?|?];
        destruct files as [|f0 files]; cbn [is_nil orb iterable bind negb andb];
        try reflexivity;
        repeat match goal with
               | |- context [if ?b then _ else _] => destruct b
               end;
        try reflexivity.
    + rewrite IH. cbn [bind].
      destruct (negb (is_nil files) && _); reflexivity.
Qed.

Lemma insert_sorted_perm (x : string) (l : list string) :
  Permutation (insert_sorted x l) (x :: l).
Proof.
  induction l as [|y l IH]; simpl; [auto|].
  destruct (String.leb x y); [auto|].
  rewrite IH. apply perm_swap.
Qed.

Lemma sorted_perm (l : list string) : Permutation (sorted l) l.
Proof.
  unfold sorted. induction l as [|x l IH]; simpl; [auto|].
  now rewrite insert_sorted_perm, IH.
Qed.

Lemma select_profiles_closed (cfg : Executor.Cfg) (files : list string) :
  Executor._select_profiles cfg files
  = match table cfg with
    | None => Raise AttributeError
    | Some profs =>
        if negb (is_nil files)
           && existsb (fun e => breaks (fst e) (snd e)) profs
        then Raise TypeError
        else Ok (sorted (nodup string_dec
                   (map fst (filter (fun e => triggered files (fst e) (snd e))
                               profs))))
    end.
Proof.
  unfold Executor._select_profiles, table.
  destruct (Executor.profiles cfg) as [[| | | | | |profs]|]; try reflexivity.
  - rewrite selected_filter.
    destruct (negb (is_nil files) && _); reflexivity.
  - change (PyDict.items []) with (@nil (string * value)).
    rewrite selected_filter. simpl. now rewrite andb_false_r.
Qed.

Lemma in_selection (profs : dict) (files : list string) (name : string) :
  In name
    (sorted (nodup string_dec
       (map fst (filter (fun e => triggered files (fst e) (snd e)) profs))))
  <-> exists p, In (name, p) profs /\ triggered files name p = true.
Proof.
  rewrite sorted_in, nodup_In, in_map_iff. split.
  - intros ([n p] & <- & H). apply filter_In in H as [H1 H2]. eauto.
  - intros (p & H1 & H2). exists (name, p). split; [reflexivity|].
    apply filter_In. auto.
Qed.

(** X16 ([_select_profiles], executor and orchestrator; [_match_any]):
    when the selection succeeds and when it fails. If what the
    configuration holds under [profiles] is not an object, it fails with
    [AttributeError]. If there is a changed file and an entry that takes
    part in the selection has a number or [true] for its triggers, it
    fails with [TypeError]. Otherwise it returns, and a name is selected
    exactly when the table has it with an entry that is triggered by the
    changed files: the name is not [all], the entry is an object, its
    [auto_select] is not the value [false], its triggers are not empty,
    and one of the strings they yield, taken as a pattern, hits one of
    the files; the list is in ascending order and has no name twice, and
    [all] is never in it. *)
Theorem selection_characterised (cfg : Executor.Cfg) (files : list string) :
  (table cfg = None ->
   Executor._select_profiles cfg files = Raise AttributeError)
  /\ (forall profs,
        table cfg = Some profs ->
        files <> [] ->
        existsb (fun e => breaks (fst e) (snd e)) profs = true ->
        Executor._select_profiles cfg files = Raise TypeError)
  /\ (forall profs,
        table cfg = Some profs ->
        files = []
        \/ existsb (fun e => breaks (fst e) (snd e)) profs = false ->
        exists names,
          Executor._select_profiles cfg files = Ok names
          /\ (forall name,
                In name names
                <-> exists p, In (name, p) profs
                              /\ triggered files name p = true)
          /\ ascending names = true
          /\ NoDup names
          /\ ~ In "all" names).
Proof.
  rewrite select_profiles_closed. split; [|split].
  - now intros ->.
  - intros profs -> Hfiles ->. destruct files; [congruence|reflexivity].
  - intros profs -> Hok.
    assert (E : negb (is_nil files)
                && existsb (fun e => breaks (fst e) (snd e)) profs = false).
    { destruct Hok as [->| ->]; [reflexivity|apply andb_false_r]. }
    rewrite E. eexists. split; [reflexivity|].
    split; [intros name; apply in_selection|].
    split; [apply sorted_ascending|]. split.
    + eapply Permutation_NoDup; [symmetry; apply sorted_perm|].
      apply NoDup_nodup.
    + intros H. apply in_selection in H as (p & _ & H). discriminate.
Qed.

Lemma selection_characterised_witness :
  Executor._select_profiles broken_profiles ["src/login.go"] = Raise TypeError
  /\ exists names, Executor._select_profiles broken_profiles [] = Ok names.
Proof.
  split.
  - refine (proj1 (proj2 (selection_characterised broken_profiles
                            ["src/login.go"])) _ eq_refl _ eq_refl).
    discriminate.
  - destruct (proj2 (proj2 (selection_characterised broken_profiles []))
                _ eq_refl (or_introl eq_refl)) as (names & H & _).
    now exists names.
Defined.

Lemma existsb_same_members {A : Type} (g : A -> bool) (l l' : list A) :
  (forall a, In a l <-> In a l') -> existsb g l = existsb g l'.
Proof.
  intros H. destruct (existsb g l) eqn:E.
  - apply existsb_exists in E as (a & Ha & Hg). symmetry.
    apply existsb_exists. exists a. split; [now apply H|exact Hg].
  - destruct (existsb g l') eqn:E'; [|reflexivity].
    apply existsb_exists in E' as (a & Ha & Hg).
    rewrite <- E. apply existsb_exists. exists a.
    split; [now apply H|exact Hg].
Qed.

Lemma triggered_same_members (files files' : list string) (name : string)
  (p : value) :
  (forall f, In f files <-> In f files') ->
  triggered files name p = triggered files' name p.
Proof.
  intros H. unfold triggered. destruct (live_triggers name p); [|reflexivity].
  now apply existsb_same_members.
Qed.

(** X17 ([_select_profiles]): the selection depends on the set of the
    changed files only, not on their order or repetition; and with more
    files changed no selected profile is lost. *)
Theorem selection_follows_the_change_set (cfg : Executor.Cfg)
  (files files' : list string) :
  ((forall f, In f files <-> In f files') ->
   Executor._select_profiles cfg files = Executor._select_profiles cfg files')
  /\ (incl files files' ->
      forall names names',
        Executor._select_profiles cfg files = Ok names ->
        Executor._select_profiles cfg files' = Ok names' ->
        incl names names').
Proof.
  rewrite !select_profiles_closed. destruct (table cfg) as [profs|].
  2: { split; [reflexivity|discriminate]. }
  split.
  - intros H.
    assert (Enil : is_nil files = is_nil files').
    { destruct files as [|f files], files' as [|f' files']; try reflexivity.
      - destruct (proj2 (H f') (or_introl eq_refl)).
      - destruct (proj1 (H f) (or_introl eq_refl)). }
    rewrite Enil. destruct (negb (is_nil files') && _); [reflexivity|].
    do 4 f_equal. apply filter_ext. intros [name p].
    now apply triggered_same_members.
  - intros Hincl names names'.
    destruct (negb (is_nil files) && _); [discriminate|].
    destruct (negb (is_nil files') && _); [discriminate|].
    intros [= <-] [= <-] name. rewrite !in_selection.
    intros (p & Hp & Ht). exists p. split; [exact Hp|].
    unfold triggered in *. destruct (live_triggers name p); [|discriminate].
    apply existsb_exists in Ht as (f & Hf & Hhit).
    apply existsb_exists. exists f. split; [now apply Hincl|exact Hhit].
Qed.

Lemma selection_follows_the_change_set_witness :
  Executor._select_profiles sample_profiles ["src/login.go"; "README.md"]
  = Executor._select_profiles sample_profiles
      ["README.md"; "src/login.go"; "README.md"].
Proof.
  apply (proj1 (selection_follows_the_change_set sample_profiles
                  ["src/login.go"; "README.md"]
                  ["README.md"; "src/login.go"; "README.md"])).
  intros f. simpl. tauto.
Defined.

(** *** The list of profiles on the command line *)

Lemma chars_app (s t : string) : chars (s ++ t) = chars s ++ chars t.
Proof. unfold chars. induction s; simpl; congruence. Qed.

Lemma split_on_plain (sep : ascii) (l rest cur : list ascii) :
  forallb (fun c => negb (Ascii.eqb c sep)) l = true ->
  split_on sep cur (l ++ rest) = split_on sep (rev l ++ cur) rest.
Proof.
  revert cur. induction l as [|c l IH]; intros cur H; simpl in *.
  - reflexivity.
  - apply andb_true_iff in H as [Hc Hl]. apply negb_true_iff in Hc.
    rewrite Hc, IH by assumption. now rewrite <- app_assoc.
Qed.

Lemma comma_free (name : string) :
  forallb (fun c => negb (is_char 44 c)) (chars name) = true ->
  forallb (fun c => negb (Ascii.eqb c ","%char)) (chars name) = true.
Proof.
  intros H. rewrite forallb_forall in *. intros c Hc.
  specialize (H c Hc). apply negb_true_iff in H. apply negb_true_iff.
  destruct (Ascii.eqb c ","%char) eqn:E; [|reflexivity].
  apply Ascii.eqb_eq in E. subst c. discriminate.
Qed.

Lemma split_join (names : list string) :
  names <> [] ->
  forallb (fun n => forallb (fun c => negb (is_char 44 c)) (chars n)) names
  = true ->
  split ","%char (Executor.join "," names) = names.
Proof.
  unfold split. induction names as [|x names IH]; [congruence|].
  intros _ H. simpl in H. apply andb_true_iff in H as [Hx Hnames].
  apply comma_free in Hx.
  destruct names as [|y names].
  - simpl. rewrite <- (app_nil_r (chars x)).
    rewrite split_on_plain by assumption. simpl.
    now rewrite app_nil_r, rev_involutive, str_chars.
  - change (Executor.join "," (x :: y :: names))
      with (x ++ "," ++ Executor.join "," (y :: names))%string.
    rewrite chars_app, split_on_plain by assumption.
    rewrite chars_app. simpl.
    rewrite app_nil_r, rev_involutive, str_chars. f_equal.
    apply IH; [discriminate|exact Hnames].
Qed.

Lemma lskip_in (blank : ascii -> bool) (c : ascii) (l : list ascii) :
  In c (lskip blank l) -> In c l.
Proof.
  induction l as [|a l IH]; simpl; [auto|].
  destruct (blank a); simpl; auto.
Qed.

Lemma trim_in (blank : ascii -> bool) (c : ascii) (l : list ascii) :
  In c (trim blank l) -> In c l.
Proof.
  unfold trim. intros H. apply in_rev in H.
  apply lskip_in in H. apply in_rev in H. now apply lskip_in in H.
Qed.

Lemma split_on_no_sep (sep : ascii) (l cur : list ascii) :
  forallb (fun c => negb (Ascii.eqb c sep)) cur = true ->
  Forall (fun s => forallb (fun c => negb (Ascii.eqb c sep)) (chars s) = true)
    (split_on sep cur l).
Proof.
  revert cur. induction l as [|c l IH]; intros cur Hcur; simpl.
  - constructor; [|constructor]. rewrite chars_str.
    rewrite forallb_forall in *. intros a Ha. apply Hcur. now apply in_rev.
  - destruct (Ascii.eqb c sep) eqn:E.
    + constructor; [|now apply IH]. rewrite chars_str.
      rewrite forallb_forall in *. intros a Ha. apply Hcur. now apply in_rev.
    + apply IH. simpl. now rewrite E.
Qed.

Lemma eqb_comma (c : ascii) : Ascii.eqb c ","%char = is_char 44 c.
Proof.
  unfold is_char, ord. destruct (Ascii.eqb c ","%char) eqn:E.
  - apply Ascii.eqb_eq in E. now subst.
  - symmetry. apply Z.eqb_neq. intros H.
    apply Ascii.eqb_neq in E. apply E.
    rewrite <- (ascii_nat_embedding c).
    change 44 with (Z.of_nat 44) in H.
    apply Nat2Z.inj in H. now rewrite H.
Qed.

Lemma parsed_names_tidy (profiles_arg : string) :
  forallb tidy_name (Executor.profiles_of_arg profiles_arg) = true.
Proof.
  unfold Executor.profiles_of_arg. rewrite forallb_forall. intros name Hin.
  apply in_map_iff in Hin as (p & <- & Hp).
  apply filter_In in Hp as [Hp Hne].
  unfold tidy_name. rewrite strip_idem, String.eqb_refl, Hne, !andb_true_r.
  assert (H := split_on_no_sep ","%char (chars profiles_arg) [] eq_refl).
  rewrite Forall_forall in H. specialize (H p Hp).
  rewrite forallb_forall in *. intros c Hc.
  rewrite <- eqb_comma. apply H.
  unfold strip in Hc. rewrite chars_str in Hc. now apply trim_in in Hc.
Qed.

Lemma joined_names_parse_back (names : list string) :
  forallb tidy_name names = true ->
  Executor.profiles_of_arg (Executor.join "," names) = names.
Proof.
  intros H. unfold Executor.profiles_of_arg.
  destruct names as [|x names]; [reflexivity|].
  rewrite split_join; [|discriminate|].
  - induction (x :: names) as [|n l IH]; [reflexivity|].
    simpl in H. apply andb_true_iff in H as [Hn Hl].
    unfold tidy_name in Hn.
    apply andb_true_iff in Hn as [Hn Hstrip].
    apply andb_true_iff in Hn as [_ Hne].
    apply String.eqb_eq in Hstrip.
    simpl. rewrite Hstrip, Hne. simpl. rewrite Hstrip. f_equal. now apply IH.
  - rewrite forallb_forall in *. intros n Hn. specialize (H n Hn).
    unfold tidy_name in H. apply andb_true_iff in H as [H _].
    now apply andb_true_iff in H as [H _].
Qed.

Lemma joined_auto (names : list string) :
  forallb tidy_name names = true ->
  Executor.join "," names = "auto" -> names = ["auto"].
Proof.
  intros Htidy E. apply joined_names_parse_back in Htidy.
  rewrite E in Htidy. now rewrite <- Htidy.
Qed.

(** X18 ([cmd_run], the [--profiles] argument; [main] of the
    orchestrator, which builds it): unless the argument is the word
    [auto], the profiles [cmd_run] sets out to run are the names of the
    comma list, each of them non-empty, without a blank at either end and
    without a comma. A list of such names, joined by commas as the
    orchestrator does, is read back as the same list, in the same order,
    unless it is the single name [auto]: then the argument is the word
    [auto], which is not read as a list; the profiles are selected from
    the diff instead. *)
Theorem profiles_argument_round_trip (cfg : Executor.Cfg)
  (profiles_arg : string) (git_output : option string)
  (names : list string) :
  (profiles_arg <> "auto" ->
   Executor.requested_profiles cfg profiles_arg git_output
   = Ok (Executor.profiles_of_arg profiles_arg)
   /\ forallb tidy_name (Executor.profiles_of_arg profiles_arg) = true)
  /\ (forallb tidy_name names = true -> names <> ["auto"] ->
      Executor.requested_profiles cfg (Executor.join "," names) git_output
      = Ok names)
  /\ Executor.requested_profiles cfg (Executor.join "," ["auto"]) git_output
     = (files <- Executor._git_diff_files git_output ;;
        Executor._select_profiles cfg files).
Proof.
  split; [|split; [|reflexivity]].
  - intros Hne. apply String.eqb_neq in Hne.
    unfold Executor.requested_profiles. rewrite Hne.
    split; [reflexivity|apply parsed_names_tidy].
  - intros Htidy Hne. unfold Executor.requested_profiles.
    destruct (String.eqb (Executor.join "," names) "auto") eqn:E.
    + apply String.eqb_eq in E. now apply joined_auto in E.
    + now rewrite joined_names_parse_back.
Qed.

Lemma profiles_argument_round_trip_witness :
  Executor.requested_profiles sample_profiles
    (Executor.join "," ["authn-gateway"; "unit"]) None
  = Ok ["authn-gateway"; "unit"].
Proof.
  refine (proj1 (proj2 (profiles_argument_round_trip sample_profiles
                          "" None ["authn-gateway"; "unit"])) eq_refl _).
  discriminate.
Defined.

(** The one name that does not come back: the executor takes the
    argument for the word [auto] and, git failing, stops. *)
Lemma single_name_auto :
  tidy_name "auto" = true
  /\ Executor.profiles_of_arg "auto" = ["auto"]
  /\ Executor.requested_profiles sample_profiles
       (Executor.join "," ["auto"]) None = Raise CalledProcessError.
Proof. vm_compute. repeat split; reflexivity. Qed.

(** *** What a run of the executor leaves behind *)

Section Outcome.

Variable World : Type.
Variable format : string -> string -> result string.
Variable runner : World -> string -> Z * World.

(** A loop that comes to its end has either run every profile, none of
    them exiting with 2, or stopped at the first that did. *)
Lemma run_profiles_outcome (runner_tpl : string) (profiles : list string)
  (st final : Assurance.RunState World) :
  Assurance.run_profiles World format runner runner_tpl profiles st
  = Assurance.Returns final ->
  exists new,
    Assurance.executed final = Assurance.executed st ++ new
    /\ ((map fst new = profiles
         /\ Forall (fun r => snd r <> 2) new
         /\ Assurance.overall_rc final
            = if forallb (fun r => snd r =? 0) new
              then Assurance.overall_rc st else 1)
        \/ (exists pre p rest,
              new = pre ++ [(p, 2)]
              /\ Forall (fun r => snd r <> 2) pre
              /\ profiles = map fst pre ++ p :: rest
              /\ Assurance.overall_rc final = 2)).
Proof.
  revert st.
  induction profiles as [|p profiles IH]; intros st; simpl.
  - intros [= <-]. exists []. rewrite app_nil_r. split; [reflexivity|].
    left. auto.
  - destruct (format runner_tpl p) as [cmd|e]; [|discriminate].
    destruct (runner (Assurance.world st) cmd) as [rc w].
    destruct (rc =? 2) eqn:E2.
    + apply Z.eqb_eq in E2. subst rc. intros [= <-]. exists [(p, 2)]. simpl.
      split; [reflexivity|]. right. exists [], p, profiles. auto.
    + apply Z.eqb_neq in E2. intros Hrun.
      destruct (IH _ Hrun) as (new & Hex & Hcase).
      simpl in Hex, Hcase. exists ((p, rc) :: new).
      rewrite Hex, <- app_assoc. split; [reflexivity|].
      destruct Hcase as [(Hn & Hall & Hrc)|(pre & q & rest & Hn & Hall & Hp & Hrc)].
      * left. simpl. rewrite Hn. split; [reflexivity|].
        split; [constructor; assumption|].
        rewrite Hrc. destruct (rc =? 0); simpl; [reflexivity|].
        now destruct (forallb _ new).
      * right. exists ((p, rc) :: pre), q, rest. simpl.
        split; [now rewrite Hn|]. split; [constructor; auto|].
        split; [now rewrite Hp|exact Hrc].
Qed.



Lemma cmd_run_outcome (profiles : list string) (runner_tpl : string)
  (runner_exists : bool) (git_output : option string) (w : World)
  (report : Assurance.RunReport World) :
  Assurance.cmd_run World format runner profiles runner_tpl runner_exists
    git_output w = Assurance.Returns report ->
  (map fst (Assurance.ran report) = profiles
   /\ Forall (fun r => snd r <> 2) (Assurance.ran report)
   /\ Assurance.exit_code report
      = if forallb (fun r => snd r =? 0) (Assurance.ran report) then 0 else 1)
  \/ (Assurance.exit_code report = 2
      /\ (exists rest, profiles = map fst (Assurance.ran report) ++ rest)
      /\ (Assurance.ran report = [] /\ profiles <> []
          \/ exists pre p,
               Assurance.ran report = pre ++ [(p, 2)]
               /\ Forall (fun r => snd r <> 2) pre)).
Proof.
  unfold Assurance.cmd_run.
  destruct profiles as [|p profiles].
  { intros [= <-]. left. simpl. auto. }
  destruct (String.eqb runner_tpl "").
  { intros [= <-]. right. simpl. split; [reflexivity|]. split; [eauto|].
    left. split; [reflexivity|discriminate]. }
  destruct (forallb isspace (chars runner_tpl)); [discriminate|].
  destruct (negb runner_exists).
  { intros [= <-]. right. simpl. split; [reflexivity|]. split; [eauto|].
    left. split; [reflexivity|discriminate]. }
  destruct git_output as [out|]; [|discriminate].
  destruct (Assurance.run_profiles _ _ _ _ _ _) as [final|e w'] eqn:Erun;
    [|discriminate].
  intros [= <-]. cbn [Assurance.exit_code Assurance.ran].
  destruct (run_profiles_outcome _ _ _ _ Erun) as (new & Hex & Hcase).
  simpl in Hex, Hcase. rewrite Hex.
  destruct Hcase as [H|(pre & q & rest & Hn & Hall & Hp & Hrc)].
  - left. exact H.
  - right. rewrite Hrc, Hn, Hp, map_app. simpl.
    split; [reflexivity|]. split.
    + exists rest. now rewrite <- app_assoc.
    + right. eauto.
Qed.




End Outcome.


(** A template that names a field the call does not give fails at the
    first profile, with nothing run. *)
Lemma unknown_field_in_template :
  Assurance.cmd_run nat sample_format sample_runner ["unit"]
    "./run.sh {profile} ${HOME}" true sample_diff 0%nat
  = Assurance.Raises KeyError 0%nat.
Proof. vm_compute. reflexivity. Qed.

Lemma lookup_exit_codes (name : string) (ran : list (string * Z)) (d : dict) :
  lookup name
    (fold_left (fun d r => PyDict.set_item d (fst r) (VInt (snd r))) ran d)
  = match last_code name ran with
    | Some rc => Some (VInt rc)
    | None => lookup name d
    end.
Proof.
  revert d. induction ran as [|[p rc] ran IH]; intros d; simpl.
  - reflexivity.
  - rewrite IH. destruct (last_code name ran); [reflexivity|].
    destruct (String.eqb name p) eqn:E.
    + apply String.eqb_eq in E. subst p. apply lookup_set_item_same.
    + apply String.eqb_neq in E. now apply lookup_set_item_other.
Qed.

Section Recorded.

Variable World : Type.
Variable format : string -> string -> result string.
Variable runner : World -> string -> Z * World.

Lemma evidence_of_executor_record (profiles : list string)
  (runner_tpl : string) (runner_exists : bool) (git_output : option string)
  (w : World) (report : Assurance.RunReport World)
  (recorded_at : Z) (base : string) (files : list string)
  (run_id run_json : string) (state : dict)
  (fp : string) (now max_age : Z) :
  Assurance.cmd_run World format runner profiles runner_tpl runner_exists
    git_output w = Assurance.Returns report ->
  Executor.last_run_state recorded_at base (Assurance._fingerprint files)
    profiles run_id run_json report = Some state ->
  let current :=
    String.eqb (Assurance._fingerprint files) fp
    && (now - recorded_at <=? max_age) in
  Guard.evidence_state (Some state) fp now max_age
  = Ok {| Guard.evidence_pass :=
            current && (Assurance.exit_code report =? 0);
          Guard.ran_fresh_for_diff :=
            current && negb (Assurance.exit_code report =? 2);
          Guard.authn_gateway_pass :=
            current
            && match last_code "authn-gateway" (Assurance.ran report) with
               | Some rc => rc =? 0
               | None => false
               end;
          Guard.profile_exit_codes :=
            VDict (Executor.profile_exit_codes (Assurance.ran report)) |}.
Proof.
  intros Hrun. cbv zeta. unfold Executor.last_run_state.
  assert (Hrange := cmd_run_outcome World format runner _ _ _ _ _ _ Hrun).
  clear Hrun.
  destruct (Assurance.status report) as [status|]; [|discriminate].
  intros [= <-].
  unfold Guard.evidence_state, get. cbn [lookup String.eqb Ascii.eqb Bool.eqb].
  cbn [int bind try_except Guard.equals_str].
  unfold Executor.profile_exit_codes at 1.
  rewrite lookup_exit_codes. cbn [lookup].
  assert (E : (Assurance.exit_code report =? 0)
              || (Assurance.exit_code report =? 1)
              = negb (Assurance.exit_code report =? 2)).
  { destruct Hrange as [(_ & _ & ->)|(-> & _)]; [|reflexivity].
    now destruct (forallb _ _). }
  rewrite E.
  destruct (last_code "authn-gateway" (Assurance.ran report)) as [rc|];
    cbn [int try_except_value_type bind]; [reflexivity|].
  now rewrite !andb_false_r.
Qed.

(** X20 ([cmd_run] writing the state record, [main] of the guard reading
    it): the guard can always read the record the executor leaves,
    whatever the profiles exited with. The record counts as current when
    its fingerprint is the one the guard computes and its age is within
    the window; of a current record the run passes when the overall code
    is 0, counts as run unless that code is 2, and the gateway passes
    when the run of the profile [authn-gateway] recorded last exited
    with 0. *)
Theorem guard_reads_the_executors_record (profiles : list string)
  (runner_tpl : string) (runner_exists : bool) (git_output : option string)
  (w : World) (report : Assurance.RunReport World)
  (recorded_at : Z) (base : string) (files : list string)
  (run_id run_json : string) (state : dict)
  (fp : string) (now max_age : Z) :
  Assurance.cmd_run World format runner profiles runner_tpl runner_exists
    git_output w = Assurance.Returns report ->
  Executor.last_run_state recorded_at base (Assurance._fingerprint files)
    profiles run_id run_json report = Some state ->
  let current :=
    String.eqb (Assurance._fingerprint files) fp
    && (now - recorded_at <=? max_age) in
  Guard.evidence_state (Some state) fp now max_age
  = Ok {| Guard.evidence_pass :=
            current && (Assurance.exit_code report =? 0);
          Guard.ran_fresh_for_diff :=
            current && negb (Assurance.exit_code report =? 2);
          Guard.authn_gateway_pass :=
            current
            && match last_code "authn-gateway" (Assurance.ran report) with
               | Some rc => rc =? 0
               | None => false
               end;
          Guard.profile_exit_codes :=
            VDict (Executor.profile_exit_codes (Assurance.ran report)) |}.
Proof.
  exact (evidence_of_executor_record profiles runner_tpl runner_exists
           git_output w report recorded_at base files run_id run_json state
           fp now max_age).
Qed.


End Recorded.

Lemma guard_reads_the_executors_record_witness :
  Guard.evidence_state (Some failing_lint_record) sample_fp 4600 3600
  = Ok {| Guard.evidence_pass := false; Guard.ran_fresh_for_diff := true;
          Guard.authn_gateway_pass := true;
          Guard.profile_exit_codes :=
            VDict [("lint", VInt 3); ("authn-gateway", VInt 0)] |}.
Proof.
  exact (guard_reads_the_executors_record nat sample_format sample_runner
           ["lint"; "authn-gateway"] sample_template true sample_diff 0%nat
           _ 1000 "origin/develop" ["src/login.go"] "r-1" "/tmp/run.json"
           failing_lint_record sample_fp 4600 3600 eq_refl eq_refl).
Defined.


(** *** The orchestrator *)

(** X21 ([main] of the orchestrator): the executor is called only when
    the hook is not already in a continuation, the engine is enabled,
    the automatic run is switched on, the configuration is there, the
    change set is not empty and at least one profile is selected for it;
    what is handed over is the selected profiles joined by commas and
    the base branch; and when the names are non-empty, without blanks at
    the ends and without commas, the executor reads back the very list
    that was selected. *)
Theorem executor_called_only_when_asked (payload : dict)
  (enabled base_env debounce_env autorun_env : option string)
  (cfg : option Executor.Cfg) (git : string -> option string)
  (prev : option dict) (now : Z) (arg base : string) :
  Orchestrator.main payload enabled base_env debounce_env autorun_env cfg
    git prev now = Ok (Orchestrator.RunExecutor arg base) ->
  PyDict.truth (get payload "stop_hook_active" VNone) = false
  /\ enabled = Some "1"
  /\ autorun_env = Some "1"
  /\ exists c names,
       cfg = Some c
       /\ base = Orchestrator.base_of base_env c
       /\ Orchestrator._git_diff_files (git base) <> []
       /\ Executor._select_profiles c (Orchestrator._git_diff_files (git base))
          = Ok names
       /\ names <> []
       /\ arg = Executor.join "," names
       /\ (forallb tidy_name names = true ->
           Executor.profiles_of_arg arg = names).
Proof.
  unfold Orchestrator.main.
  destruct (PyDict.truth _); [discriminate|].
  destruct (String.eqb (Orchestrator.or_default enabled "0") "1") eqn:Een;
    [|discriminate].
  simpl. destruct cfg as [c|]; [|discriminate].
  destruct (Orchestrator._git_diff_files _) as [|f files] eqn:Ef;
    [discriminate|].
  destruct (int_of_str _) as [d|e]; [|discriminate]. cbn [bind].
  match goal with |- context [bind ?m _] => destruct m as [held|e] end;
    [|discriminate].
  cbn [bind]. destruct held; [discriminate|].
  unfold Orchestrator._select_profiles.
  destruct (Executor._select_profiles c (f :: files)) as [names|e] eqn:Es;
    [|discriminate].
  cbn [bind]. destruct names as [|n names]; [discriminate|].
  destruct (String.eqb (Orchestrator.or_default autorun_env "0") "1") eqn:Eau;
    [|discriminate].
  intros [= <- <-]. split; [reflexivity|].
  apply String.eqb_eq in Een, Eau.
  split; [destruct enabled; simpl in Een; congruence|].
  split; [destruct autorun_env; simpl in Eau; congruence|].
  exists c, (n :: names). rewrite Ef.
  repeat split; try assumption; try discriminate.
  apply joined_names_parse_back.
Qed.

Lemma executor_called_only_when_asked_witness :
  exists c names,
    Some sample_profiles = Some c
    /\ Executor._select_profiles c
         (Orchestrator._git_diff_files sample_diff) = Ok names
    /\ "authn-gateway,unit" = Executor.join "," names.
Proof.
  destruct (executor_called_only_when_asked [] (Some "1") None None
              (Some "1") (Some sample_profiles) (fun _ => sample_diff)
              None 0 "authn-gateway,unit" "origin/develop" eq_refl)
    as (_ & _ & _ & c & names & Hc & _ & _ & Hs & _ & Hj & _).
  exists c, names. auto.
Defined.

(** X22 ([main] of the orchestrator, the debounce): a record of the last
    run holds the next run back only while its fingerprint is that of
    the current change set and its age is less than the debounce time.
    A record with another fingerprint counts for nothing, whatever else
    it holds; a record as old as the debounce time, or older, counts for
    nothing either; a younger one with the same fingerprint stops the
    hook. *)
Theorem debounce_is_strict (payload : dict)
  (enabled base_env debounce_env autorun_env : option string)
  (c : Executor.Cfg) (git : string -> option string)
  (prev : dict) (now : Z) :
  let fp :=
    Orchestrator._fingerprint
      (Orchestrator._git_diff_files (git (Orchestrator.base_of base_env c))) in
  let run prev :=
    Orchestrator.main payload enabled base_env debounce_env autorun_env
      (Some c) git prev now in
  (Guard.equals_str (lookup "diff_fingerprint" prev) fp = false ->
   run (Some prev) = run None)
  /\ (forall ts d,
        int (get prev "timestamp" (VInt 0)) = Ok ts ->
        int_of_str (Orchestrator.or_default debounce_env "300") = Ok d ->
        (d <= now - ts -> run (Some prev) = run None)
        /\ (now - ts < d ->
            Guard.equals_str (lookup "diff_fingerprint" prev) fp = true ->
            run (Some prev) = Ok Orchestrator.Nothing)).
Proof.
  cbv zeta. unfold Orchestrator.main.
  destruct (PyDict.truth _); [repeat split; reflexivity|].
  destruct (negb _); [repeat split; reflexivity|].
  destruct (Orchestrator._git_diff_files _) as [|f files];
    [repeat split; reflexivity|].
  destruct prev as [|kv prev].
  { repeat split; try reflexivity. simpl. discriminate. }
  split.
  - intros ->. reflexivity.
  - intros ts d Hts Hd. rewrite Hd, Hts. cbn [bind]. split.
    + intros Hold.
      destruct (Guard.equals_str _ _); [|reflexivity].
      cbn [bind]. apply Z.ltb_ge in Hold. now rewrite Hold.
    + intros Hyoung ->. cbn [bind].
      apply Z.ltb_lt in Hyoung. now rewrite Hyoung.
Qed.

Lemma debounce_is_strict_witness :
  stop_after_edit (Some (passing_record (VInt 1000))) 1300
  = stop_after_edit None 1300.
Proof.
  refine (proj1 (proj2 (debounce_is_strict [] (Some "1") None None
                          (Some "1") sample_profiles (fun _ => sample_diff)
                          (passing_record (VInt 1000)) 1300)
                   1000 300 eq_refl eq_refl) _).
  vm_compute. discriminate.
Defined.

(** At the very age of the debounce time the run is made; one second
    earlier it is not. *)
Lemma debounce_boundary :
  stop_after_edit (Some (passing_record (VInt 1000))) 1300
  = Ok (Orchestrator.RunExecutor "authn-gateway,unit" "origin/develop")
  /\ stop_after_edit (Some (passing_record (VInt 1000))) 1299
     = Ok Orchestrator.Nothing.
Proof. vm_compute. split; reflexivity. Qed.

(** *** The path of a file call *)

(** The hook reads of the call its session, the name of the tool, the
    command and the path, and nothing else. *)
Lemma main_reads_four_fields (enabled : option string)
  (config : option Guard.Config) (payload payload' : Guard.Payload)
  (git_output : option string) (state : option dict) (now : Z)
  (log : list Guard.Event) :
  Guard.session_id payload = Guard.session_id payload' ->
  Guard.tool_name payload = Guard.tool_name payload' ->
  Guard.command_of (Guard.tool_input payload)
  = Guard.command_of (Guard.tool_input payload') ->
  Guard.file_path_of (Guard.tool_input payload)
  = Guard.file_path_of (Guard.tool_input payload') ->
  Guard.main enabled config payload git_output state now log
  = Guard.main enabled config payload' git_output state now log.
Proof.
  intros Hs Ht Hc Hf.
  unfold Guard.main, Guard.handle_bash, Guard.handle_file, Guard.event.
  now rewrite Hs, Ht, Hc, Hf.
Qed.

(** X24 ([main], file branch): a path written with backslashes is judged,
    and logged, as the same path written with slashes; and a call that
    names its path under the key [path] is treated as one that names it
    under [file_path]. *)
Theorem backslashes_do_not_evade (enabled : option string)
  (config : option Guard.Config) (session : value) (tool path : string)
  (git_output : option string) (state : option dict) (now : Z)
  (log : list Guard.Event) :
  let run payload :=
    Guard.main enabled config payload git_output state now log in
  run (file_call session tool "file_path" path)
  = run (file_call session tool "file_path" (Guard._posix path))
  /\ run (file_call session tool "path" path)
     = run (file_call session tool "file_path" path).
Proof.
  cbv zeta. split; apply main_reads_four_fields; try reflexivity.
  unfold file_call, Guard.file_path_of. simpl.
  symmetry. apply posix_idem.
Qed.
